(** * Verification of the browser utility module [static/js/main.js]

    The module is a collection of independent helpers (notifications,
    size formatting, URL validation, clipboard access, debounce and
    throttle wrappers, loading-state toggling).  Each helper is embedded
    below as a Rocq function over an explicit model of the part of the
    browser it touches:

    - numbers that the formatting code handles are exact integers and
      exact two-place decimals; on safe integers the division by a power
      of 1024 is exact in IEEE doubles, so the embedding follows the
      arithmetic of the source;
    - the DOM is a heap of element objects addressed by identity;
    - timers are a queue of pending callbacks with a logical clock in
      milliseconds, closures being represented by first-order data;
    - exceptions are an explicit error result. *)

From Stdlib Require Import ZArith NArith Lia Ascii String DecimalString DecimalN.
From Stdlib Require Import QArith Lqa.
From stdpp Require Import base option list gmap strings.

Open Scope Z_scope.

(** ** Strings *)

Module Str.

(** The text after the first decimal point of [s], if [s] has one. *)
Fixpoint after_dot (s : string) : option string :=
  match s with
  | EmptyString => None
  | String c r => if Ascii.eqb c "."%char then Some r else after_dot r
  end.

(** The text before the first decimal point of [s]. *)
Fixpoint before_dot (s : string) : string :=
  match s with
  | EmptyString => EmptyString
  | String c r => if Ascii.eqb c "."%char then EmptyString else String c (before_dot r)
  end.



Fixpoint no_dot (s : string) : bool :=
  match s with
  | EmptyString => true
  | String c r => negb (Ascii.eqb c "."%char) && no_dot r
  end.

(** [ends_with s t]: [t] is a suffix of [s] (JavaScript's [s.endsWith(t)]). *)
Definition ends_with (s t : string) : bool :=
  let n := String.length s in
  let m := String.length t in
  (m <=? n)%nat && String.eqb (String.substring (n - m) m s) t.

End Str.

(** ** formatFileSize *)

Module Format.

Definition k : Z := 1024.

Definition sizes : list string := ["Bytes"; "KB"; "MB"; "GB"; "TB"].

(** [Math.floor(Math.log(bytes) / Math.log(k))], taken over the reals:
    the largest [i] with [k ^ i <= bytes], for [bytes >= 1].  The code
    divides two logarithms that are rounded to double precision, and
    the floor of that quotient is this index unless [bytes] lies so
    close below a power of [k] that the rounded quotient reaches the
    next integer.  For an integer [bytes] that needs a distance of less
    than one part in [2 ^ 45] from the power, which first happens a few
    units below [k ^ 5]: up to [k ^ 5 - 1024], and at the inputs
    evaluated below, the two agree. *)
Definition log_index (bytes : Z) : nat :=
  Z.to_nat (Z.log2 bytes / Z.log2 k).

(** [Math.pow(k, i)]. *)
Definition pow_k (i : nat) : Z := k ^ Z.of_nat i.

(** A finite decimal [mant / 10 ^ scale]: the numbers that [toFixed]
    writes and [parseFloat] reads back. *)
Record decimal := Decimal { mant : N; scale : nat }.

Definition digit_char (d : N) : Ascii.ascii :=
  Ascii.ascii_of_N (48 + d).

Definition string_of_N (n : N) : string :=
  NilEmpty.string_of_uint (N.to_uint n).

(** The last [w] decimal digits of [m], most significant first. *)
Fixpoint print_frac (w : nat) (m : N) : string :=
  match w with
  | O => EmptyString
  | S w' => String (digit_char ((m / 10 ^ N.of_nat w') mod 10)%N) (print_frac w' m)
  end.

(** [x.toFixed(2)] for the non-negative rational [x = num / den]: the
    integer [n] nearest to [100 * x], the larger one on a tie, written
    with exactly two fraction digits. *)
Definition toFixed_hundredths (num den : Z) : N :=
  Z.to_N ((200 * num + den) / (2 * den)).

Definition toFixed2 (num den : Z) : string :=
  let n := toFixed_hundredths num den in
  string_of_N (n / 100) +:+ "." +:+ print_frac 2 n.

(** Reads a run of decimal digits, most significant first; [None] when
    a character is not a digit. *)
Definition parse_digits (s : string) : option N :=
  N.of_uint <$> NilEmpty.uint_of_string s.

(** [parseFloat(s)] on unsigned decimal literals [digits] or
    [digits.digits]; [None] is NaN. *)
Definition parseFloat (s : string) : option decimal :=
  match parse_digits (Str.before_dot s) with
  | None => None
  | Some ip =>
      match Str.after_dot s with
      | None => if String.eqb s "" then None else Some (Decimal ip 0)
      | Some f =>
          match parse_digits f with
          | None => None
          | Some fp =>
              let w := String.length f in
              Some (Decimal (ip * 10 ^ N.of_nat w + fp) w)
          end
      end
  end.

(** Drops trailing zeros of the fraction: the shortest decimal that
    denotes the same number. *)
Fixpoint normalize (m : N) (w : nat) : decimal :=
  match w with
  | O => Decimal m 0
  | S w' => if (m mod 10 =? 0)%N then normalize (m / 10) w' else Decimal m w
  end.

(** Number-to-string conversion, as performed by [number + ' ']. *)
Definition number_toString (x : option decimal) : string :=
  match x with
  | None => "NaN"
  | Some d =>
      let d' := normalize (mant d) (scale d) in
      let p := (10 ^ N.of_nat (scale d'))%N in
      match scale d' with
      | O => string_of_N (mant d')
      | S _ => string_of_N (mant d' / p) +:+ "." +:+ print_frac (scale d') (mant d')
      end
  end.

(** [sizes[i]] inside a string concatenation: a missing entry is
    [undefined] and is written as such. *)
Definition unit_string (i : nat) : string :=
  match sizes !! i with
  | Some u => u
  | None => "undefined"
  end.

(** The numeric part [parseFloat((bytes / Math.pow(k, i)).toFixed(2))]. *)
Definition size_number (bytes : Z) : option decimal :=
  let i := log_index bytes in
  parseFloat (toFixed2 bytes (pow_k i)).

Definition formatFileSize (bytes : Z) : string :=
  if bytes =? 0 then "0 Bytes"
  else
    let i := log_index bytes in
    number_toString (size_number bytes) +:+ " " +:+ unit_string i.

End Format.


(** ** Timers and the event loop

    [setTimeout] and [clearTimeout] over a queue of pending callbacks.
    A callback is a value of a closure type [C]; the program that owns
    the queue says how each closure runs.  The clock counts
    milliseconds. *)

Module Timer.

Section Queue.

Context {C : Type}.

Record entry := Entry { id : nat; due : nat; callback : C }.

Record queue := Queue { next_id : nat; pending : list entry }.

(** Timer handles are positive integers. *)
Definition empty : queue := Queue 1 [].

(** [setTimeout(cb, delay)] at time [now]: returns the new handle. *)
Definition setTimeout (cb : C) (delay now : nat) (q : queue) : nat * queue :=
  (next_id q,
   Queue (S (next_id q)) (pending q ++ [Entry (next_id q) (now + delay) cb])).

(** [clearTimeout(h)]; [None] stands for [undefined] and [null], and a
    handle that is not pending is ignored. *)
Definition clearTimeout (h : option nat) (q : queue) : queue :=
  match h with
  | None => q
  | Some i =>
      Queue (next_id q) (List.filter (fun e => negb (id e =? i)%nat) (pending q))
  end.

(** The pending entry that fires first: the least due time, and among
    equal due times the one registered first. *)
Fixpoint earliest (l : list entry) : option entry :=
  match l with
  | [] => None
  | e :: r =>
      match earliest r with
      | Some e' => if (due e' <? due e)%nat then Some e' else Some e
      | None => Some e
      end
  end.

(** Takes the next entry out of the queue if it is due by [limit]. *)
Definition take_due (limit : nat) (q : queue) : option (entry * queue) :=
  match earliest (pending q) with
  | Some e =>
      if (due e <=? limit)%nat then Some (e, clearTimeout (Some (id e)) q)
      else None
  | None => None
  end.

End Queue.

Arguments entry : clear implicits.
Arguments queue : clear implicits.

Section Loop.

Context {C D : Type}.

(** The state of a page: the clock, the timer queue, and the data [D]
    of the program. *)
Record world := World { now : nat; timers : queue C; data : D }.

Definition set_timers (q : queue C) (w : world) : world :=
  World (now w) q (data w).

Definition set_data (d : D) (w : world) : world :=
  World (now w) (timers w) d.

Variable handler : C -> world -> world.

(** Runs the callbacks that are due by [limit], in firing order.  The
    clock stands at the due time of a callback while it runs. *)
Fixpoint fire (fuel : nat) (limit : nat) (w : world) : world :=
  match fuel with
  | O => w
  | S fuel' =>
      match take_due limit (timers w) with
      | Some (e, q) =>
          fire fuel' limit
               (handler (callback e) (World (Nat.max (now w) (due e)) q (data w)))
      | None => w
      end
  end.

(** Lets time pass until [t].  None of the callbacks of this file
    registers a timer, so one round per pending entry is enough. *)
Definition advance (t : nat) (w : world) : world :=
  let w' := fire (length (pending (timers w))) t w in
  World (Nat.max (now w') t) (timers w') (data w').

End Loop.

Arguments world : clear implicits.

End Timer.

(** ** debounce *)

Module Debounce.

Section Wrapper.

Context {Args : Type}.
Variable wait : nat.

(** The closure [later] captures the arguments of the call. *)
Inductive closure := Later (args : Args).

(** [timeout] is the variable captured by the wrapper; [calls] records
    every invocation of [func] with the time and the arguments. *)
Record vars := Vars { timeout : option nat; calls : list (nat * Args) }.

Definition world := Timer.world closure vars.

Definition func (args : Args) (w : world) : world :=
  Timer.set_data
    (Vars (timeout (Timer.data w))
          (calls (Timer.data w) ++ [(Timer.now w, args)])) w.

Definition set_timeout_var (h : option nat) (w : world) : world :=
  Timer.set_data (Vars h (calls (Timer.data w))) w.

Definition later (args : Args) (w : world) : world :=
  let w1 := Timer.set_timers
              (Timer.clearTimeout (timeout (Timer.data w)) (Timer.timers w)) w in
  let w2 := set_timeout_var None w1 in
  func args w2.

Definition executedFunction (args : Args) (w : world) : world :=
  let w1 := Timer.set_timers
              (Timer.clearTimeout (timeout (Timer.data w)) (Timer.timers w)) w in
  let '(h, q) := Timer.setTimeout (Later args) wait (Timer.now w1) (Timer.timers w1) in
  set_timeout_var (Some h) (Timer.set_timers q w1).

Definition handler (c : closure) : world -> world :=
  match c with Later args => later args end.

(** The state right after [debounce(func, wait)] returned. *)
Definition initial : world := Timer.World 0 Timer.empty (Vars None []).

(** A call of the wrapper at time [t], in a task of its own: the timers
    due by then have run.  When the timer is due at [t] itself the
    browser may run the call first, which then cancels it; the facts
    about sequences of calls leave that coincidence out. *)
Definition call_at (w : world) (c : nat * Args) : world :=
  executedFunction (snd c) (Timer.advance handler (fst c) w).

Definition run (cs : list (nat * Args)) (w : world) : world :=
  foldl call_at w cs.

(** Consecutive call times, each less than [wait] after the one before. *)
Fixpoint burst (t : nat) (ts : list nat) : Prop :=
  match ts with
  | [] => True
  | t' :: r => (t <= t' < t + wait)%nat /\ burst t' r
  end.

(** The state between a call at time [t] and the moment its timer
    fires: one pending timer, and [func] not yet invoked. *)
Definition armed (w : world) (t : nat) (args : Args) : Prop :=
  exists h : nat,
    Timer.now w = t /\
    calls (Timer.data w) = [] /\
    Timer.pending (Timer.timers w) = [Timer.Entry h (t + wait) (Later args)] /\
    timeout (Timer.data w) = Some h.

End Wrapper.

Arguments closure : clear implicits.
Arguments vars : clear implicits.
Arguments world : clear implicits.

End Debounce.

(** ** throttle *)

Module Throttle.

(** How a call ends: it returns or it throws. *)
Inductive outcome := Returned | Threw.

Section Wrapper.

Context {Args : Type}.
Variable limit : nat.

(** [func] is the caller's function: [throws args] tells whether
    applying it to [args] ends in an exception.  The wrapper does not
    use what [func] returns.  [func] is taken not to call the wrapper
    itself. *)
Variable throws : Args -> bool.

(** The timer callback captures nothing but [inThrottle]. *)
Inductive closure := Release.

(** [inThrottle] starts out [undefined], which is falsy; [calls]
    records every invocation of [func] with the time and the
    arguments. *)
Record vars := Vars { inThrottle : bool; calls : list (nat * Args) }.

Definition world := Timer.world closure vars.

(** [func.apply(context, args)]. *)
Definition func (args : Args) (w : world) : outcome * world :=
  (if throws args then Threw else Returned,
   Timer.set_data
     (Vars (inThrottle (Timer.data w))
           (calls (Timer.data w) ++ [(Timer.now w, args)])) w).

Definition set_inThrottle (b : bool) (w : world) : world :=
  Timer.set_data (Vars b (calls (Timer.data w))) w.

(** The wrapper.  [func] is applied before the flag is set, so an
    exception of [func] leaves the wrapper with the flag unset and no
    timer. *)
Definition wrapper (args : Args) (w : world) : outcome * world :=
  if negb (inThrottle (Timer.data w)) then
    match func args w with
    | (Threw, w1) => (Threw, w1)
    | (Returned, w1) =>
        let w2 := set_inThrottle true w1 in
        let '(_, q) := Timer.setTimeout Release limit (Timer.now w2) (Timer.timers w2) in
        (Returned, Timer.set_timers q w2)
    end
  else (Returned, w).

Definition handler (c : closure) : world -> world :=
  match c with Release => set_inThrottle false end.

Definition initial : world := Timer.World 0 Timer.empty (Vars false []).

(** A call of the wrapper at time [t], in a task of its own: the timers
    due by then have run.  When the timer is due at [t] itself the
    browser may run the call first; the facts about sequences of calls
    leave that coincidence out. *)
Definition call_at (w : world) (c : nat * Args) : world :=
  snd (wrapper (snd c) (Timer.advance handler (fst c) w)).

Definition run (cs : list (nat * Args)) (w : world) : world :=
  foldl call_at w cs.

(** The blackout that lasts until [free]: the flag is set and the timer
    that resets it, due at [free], is the only one pending. *)
Definition throttled (w : world) (free : nat) (cs : list (nat * Args)) : Prop :=
  exists h : nat,
    (Timer.now w <= free)%nat /\
    inThrottle (Timer.data w) = true /\
    calls (Timer.data w) = cs /\
    Timer.pending (Timer.timers w) = [Timer.Entry h free Release].

(** No blackout: the flag is unset and no timer is pending. *)
Definition idle (w : world) (cs : list (nat * Args)) : Prop :=
  inThrottle (Timer.data w) = false /\
  calls (Timer.data w) = cs /\
  Timer.pending (Timer.timers w) = [].

(** The state that an invocation of [func] at time [t] leaves: a
    blackout of [limit] when [func] returned, none when it threw. *)
Definition invoked (w : world) (t : nat) (args : Args) (cs : list (nat * Args))
    : Prop :=
  Timer.now w = t /\
  if throws args then idle w cs else throttled w (t + limit) cs.

End Wrapper.

Arguments closure : clear implicits.
Arguments vars : clear implicits.
Arguments world : clear implicits.

End Throttle.

(** ** The page: elements, console, clipboard

    Element objects live in a heap and are referred to by identity, so
    that a change made through one reference is seen through every
    other.  Only the properties that the module reads or writes are
    kept.  [document.querySelector] is the selector engine of the
    browser and is taken as given. *)

Module Page.

Definition node := nat.

Inductive error :=
| TypeError (msg : string)
| DOMException (name : string).

Record element := Element {
  className : string;
  innerHTML : string;
  disabled : bool;
  attributes : gmap string string;
  parentNode : option node;
  childNodes : list node
}.

Definition set_className (v : string) (e : element) : element :=
  Element v (innerHTML e) (disabled e) (attributes e) (parentNode e) (childNodes e).

(** [el.innerHTML = v].  The property holds the markup as a string.
    The browser parses an assigned string and writes the nodes out
    again when the property is read: the two agree for content that was
    itself read from an element, for the spinner, and for the alert
    template filled with plain text.  The nodes made by parsing are not
    entered in [childNodes], which lists the children that the code
    itself inserts. *)
Definition set_innerHTML (v : string) (e : element) : element :=
  Element (className e) v (disabled e) (attributes e) (parentNode e) (childNodes e).

Definition set_disabled (v : bool) (e : element) : element :=
  Element (className e) (innerHTML e) v (attributes e) (parentNode e) (childNodes e).

Definition set_attributes (v : gmap string string) (e : element) : element :=
  Element (className e) (innerHTML e) (disabled e) v (parentNode e) (childNodes e).

Definition set_parentNode (v : option node) (e : element) : element :=
  Element (className e) (innerHTML e) (disabled e) (attributes e) v (childNodes e).

Definition set_childNodes (v : list node) (e : element) : element :=
  Element (className e) (innerHTML e) (disabled e) (attributes e) (parentNode e) v.

(** The timer callback of [showAlert] captures [alertDiv]. *)
Inductive closure := AutoDismiss (alertDiv : node).

Definition closure_node (c : closure) : node :=
  match c with AutoDismiss n => n end.

(** [selector] is [document.querySelector]; [console] holds the calls of
    [console.error], [clipboard] the texts handed to
    [navigator.clipboard.writeText], and [remove_calls] the elements on
    which [remove()] was called, each in order. *)
Record page := Page {
  elements : gmap node element;
  next_node : node;
  selector : string -> option node;
  console : list (string * error);
  clipboard : list string;
  remove_calls : list node
}.

Definition set_elements (v : gmap node element) (p : page) : page :=
  Page v (next_node p) (selector p) (console p) (clipboard p) (remove_calls p).

Definition world := Timer.world closure page.

Inductive result (A : Type) :=
| Ok (v : A)
| Throw (e : error).

Arguments Ok {A} v.
Arguments Throw {A} e.

(** Computations that read and change the page and may throw. *)
Definition M (A : Type) : Type := world -> result A * world.

#[export] Instance M_ret : MRet M := fun A v w => (Ok v, w).

#[export] Instance M_bind : MBind M := fun A B f m w =>
  match m w with
  | (Ok v, w') => f v w'
  | (Throw e, w') => (Throw e, w')
  end.

Definition throw {A : Type} (e : error) : M A := fun w => (Throw e, w).

Definition els (w : world) : gmap node element := elements (Timer.data w).

Definition put_els (v : gmap node element) (w : world) : world :=
  Timer.set_data (set_elements v (Timer.data w)) w.


(** *** DOM operations *)

Definition empty_element : element := Element "" "" false ∅ None [].

(** [document.createElement(tag)]: a new element, not in the tree. *)
Definition createElement (tag : string) : M node := fun w =>
  let d := Timer.data w in
  let n := next_node d in
  (Ok n,
   Timer.set_data
     (Page (<[n := empty_element]> (elements d)) (S n) (selector d)
           (console d) (clipboard d) (remove_calls d)) w).

Definition update (n : node) (f : element -> element) : M unit := fun w =>
  (Ok tt, put_els (alter f n (els w)) w).

Definition querySelector (sel : string) : M (option node) := fun w =>
  (Ok (selector (Timer.data w) sel), w).

(** The child list [l] without [n]. *)
Definition prune (n : node) (l : list node) : list node :=
  List.filter (fun x => negb (x =? n)%nat) l.

(** Takes [n] out of the child list of its parent, if it has one. *)
Definition detach (n : node) (h : gmap node element) : gmap node element :=
  match h !! n with
  | Some e =>
      match parentNode e with
      | Some p =>
          alter (set_parentNode None) n
            (alter (fun ep => set_childNodes (prune n (childNodes ep)) ep) p h)
      | None => h
      end
  | None => h
  end.

(** [n.remove()]. *)
Definition remove (n : node) : M unit := fun w =>
  let d := Timer.data w in
  (Ok tt,
   Timer.set_data
     (Page (detach n (elements d)) (next_node d) (selector d)
           (console d) (clipboard d) (remove_calls d ++ [n])) w).

Fixpoint insert_before (new ref : node) (l : list node) : list node :=
  match l with
  | [] => [new]
  | x :: r => if (x =? ref)%nat then new :: x :: r else x :: insert_before new ref r
  end.

Definition insert_child (new : node) (ref : option node) (l : list node) : list node :=
  match ref with
  | None => l ++ [new]
  | Some r => insert_before new r l
  end.

(** [parent.firstChild]. *)
Definition firstChild (parent : node) : M (option node) := fun w =>
  match els w !! parent with
  | Some p => (Ok (head (childNodes p)), w)
  | None => (Throw (TypeError "not an element"), w)
  end.

(** [parent.insertBefore(new, ref)]: [new] leaves its former parent and
    becomes the child of [parent] that precedes [ref], the last child
    when [ref] is [null]. *)
Definition insertBefore (parent new : node) (ref : option node) : M unit := fun w =>
  match els w !! parent with
  | None => (Throw (TypeError "not an element"), w)
  | Some p =>
      let known :=
        match ref with
        | Some r => bool_decide (r ∈ childNodes p)
        | None => true
        end in
      if known then
        let h1 := detach new (els w) in
        let h2 := alter (fun ep => set_childNodes (insert_child new ref (childNodes ep)) ep)
                        parent h1 in
        let h3 := alter (set_parentNode (Some parent)) new h2 in
        (Ok tt, put_els h3 w)
      else (Throw (DOMException "NotFoundError"), w)
  end.

Definition getAttribute (n : node) (name : string) : M (option string) := fun w =>
  match els w !! n with
  | Some e => (Ok (attributes e !! name), w)
  | None => (Throw (TypeError "not an element"), w)
  end.

Definition setAttribute (n : node) (name value : string) : M unit :=
  update n (fun e => set_attributes (<[name := value]> (attributes e)) e).

Definition get_innerHTML (n : node) : M string := fun w =>
  match els w !! n with
  | Some e => (Ok (innerHTML e), w)
  | None => (Throw (TypeError "not an element"), w)
  end.

Definition get_parentNode (n : node) : M (option node) := fun w =>
  match els w !! n with
  | Some e => (Ok (parentNode e), w)
  | None => (Throw (TypeError "not an element"), w)
  end.

Definition setTimeout (cb : closure) (delay : nat) : M nat := fun w =>
  let '(h, q) := Timer.setTimeout cb delay (Timer.now w) (Timer.timers w) in
  (Ok h, Timer.set_timers q w).

Definition console_error (msg : string) (e : error) : M unit := fun w =>
  let d := Timer.data w in
  (Ok tt,
   Timer.set_data
     (Page (elements d) (next_node d) (selector d)
           (console d ++ [(msg, e)]) (clipboard d) (remove_calls d)) w).

(** *** showAlert *)

Definition dq : string := String "034"%char EmptyString.
Definition nl : string := String "010"%char EmptyString.

Definition alert_class (type : string) : string :=
  "alert alert-" +:+ type +:+ " alert-dismissible fade show".

Definition close_button : string :=
  "<button type=" +:+ dq +:+ "button" +:+ dq +:+
  " class=" +:+ dq +:+ "btn-close" +:+ dq +:+
  " data-bs-dismiss=" +:+ dq +:+ "alert" +:+ dq +:+ "></button>".

Definition alert_html (message : string) : string :=
  nl +:+ "        " +:+ message +:+ nl +:+ "        " +:+ close_button +:+ nl +:+ "    ".

Definition auto_dismiss_delay : nat := 5000.



(** [container] is [None] when the argument is omitted or [null]. *)
Definition showAlert (message type : string) (container : option node) : M unit :=
  alertDiv ← createElement "div";
  update alertDiv (set_className (alert_class type));;
  update alertDiv (set_innerHTML (alert_html message));;
  targetContainer ←
    match container with
    | Some c => mret (Some c)
    | None => querySelector ".container"
    end;
  match targetContainer with
  | None => throw (TypeError "Cannot read properties of null (reading 'insertBefore')")
  | Some target =>
      first ← firstChild target;
      insertBefore target alertDiv first;;
      setTimeout (AutoDismiss alertDiv) auto_dismiss_delay;;
      mret tt
  end.

(** The callback given to [setTimeout] by [showAlert]. *)
Definition auto_dismiss (alertDiv : node) : M unit :=
  parent ← get_parentNode alertDiv;
  match parent with
  | Some _ => remove alertDiv
  | None => mret tt
  end.

Definition run_closure (c : closure) : M unit :=
  match c with AutoDismiss n => auto_dismiss n end.

(** An exception that escapes a timer callback is reported on the
    console and the event loop goes on. *)
Definition handler (c : closure) (w : world) : world :=
  match run_closure c w with
  | (Ok _, w') => w'
  | (Throw e, w') => snd (console_error "Uncaught" e w')
  end.

(** The element that [showAlert] builds, once inserted under [c]. *)
Definition banner (message type : string) (c : node) : element :=
  Element (alert_class type) (alert_html message) false ∅ (Some c) [].



(** Element identities are handed out in order, and every reference
    held by the page (child lists, timer callbacks, the record of
    [remove] calls) is to an element that exists. *)
Definition wf (w : world) : Prop :=
  let d := Timer.data w in
  (forall n : node, els w !! n = None <-> (next_node d <= n)%nat) /\
  (forall (n : node) (e : element),
     els w !! n = Some e -> Forall (fun x => (x < next_node d)%nat) (childNodes e)) /\
  (forall e : Timer.entry closure,
     e ∈ Timer.pending (Timer.timers w) ->
     (Timer.id e < Timer.next_id (Timer.timers w))%nat /\
     (closure_node (Timer.callback e) < next_node d)%nat) /\
  Forall (fun x => (x < next_node d)%nat) (remove_calls d).



(** *** copyToClipboard *)

Inductive settled (A : Type) :=
| Fulfilled (v : A)
| Rejected (reason : error).

Arguments Fulfilled {A} v.
Arguments Rejected {A} reason.

(** [p.then(onFulfilled)] once [p] is settled. *)
Definition promise_then {A B : Type} (onFulfilled : A -> M B) (p : settled A)
    (w : world) : settled B * world :=
  match p with
  | Fulfilled v =>
      match onFulfilled v w with
      | (Ok r, w') => (Fulfilled r, w')
      | (Throw e, w') => (Rejected e, w')
      end
  | Rejected e => (Rejected e, w)
  end.

(** [p.catch(onRejected)] once [p] is settled. *)
Definition promise_catch {A : Type} (onRejected : error -> M A) (p : settled A)
    (w : world) : settled A * world :=
  match p with
  | Fulfilled v => (Fulfilled v, w)
  | Rejected e =>
      match onRejected e w with
      | (Ok r, w') => (Fulfilled r, w')
      | (Throw e', w') => (Rejected e', w')
      end
  end.

(** [navigator.clipboard.writeText(text)]: the request is handed to the
    browser, which settles the returned promise later. *)
Definition writeText (text : string) : M unit := fun w =>
  let d := Timer.data w in
  (Ok tt,
   Timer.set_data
     (Page (elements d) (next_node d) (selector d)
           (console d) (clipboard d ++ [text]) (remove_calls d)) w).

Definition onCopied (_ : unit) : M unit :=
  showAlert "Copied to clipboard!" "success" None.

Definition onCopyFailed (err : error) : M unit :=
  console_error "Could not copy text: " err;;
  showAlert "Failed to copy to clipboard" "error" None.

(** The synchronous part of [copyToClipboard]. *)
Definition copyToClipboard (text : string) : M unit := writeText text.

(** The reactions [.then(...).catch(...)], run when the browser settles
    the write with outcome [o]. *)
Definition copyToClipboard_settled (o : settled unit) (w : world)
    : settled unit * world :=
  let '(p, w1) := promise_then onCopied o w in
  promise_catch onCopyFailed p w1.

(** *** isValidUrl *)

Section Url.

(** The URL parser of the browser: [new URL(s)] yields a URL record or
    throws a [TypeError]. *)
Context {url : Type}.
Variable parse_url : string -> option url.

Definition new_URL (s : string) : M url := fun w =>
  match parse_url s with
  | Some u => (Ok u, w)
  | None => (Throw (TypeError "Invalid URL"), w)
  end.

(** [try { body } catch { recover }]. *)
Definition try_catch {A : Type} (body : M A) (recover : M A) : M A := fun w =>
  match body w with
  | (Ok v, w') => (Ok v, w')
  | (Throw _, w') => recover w'
  end.

Definition isValidUrl (s : string) : M bool :=
  try_catch (new_URL s;; mret true) (mret false).

End Url.

(** *** setLoading and storeOriginalText *)

Definition spinner_html : string :=
  "<i class=" +:+ dq +:+ "fas fa-spinner fa-spin me-2" +:+ dq +:+ "></i>Loading...".

(** [a || b] on an attribute value: [null] and the empty string are
    falsy. *)
Definition or_else (a : option string) (b : string) : string :=
  match a with
  | Some v => if String.eqb v "" then b else v
  | None => b
  end.

(** [element] is a selector string or an element. *)
Definition setLoading (element : string + node) (loading : bool) : M unit :=
  btn ←
    match element with
    | inl sel => querySelector sel
    | inr n => mret (Some n)
    end;
  match btn with
  | None => throw (TypeError "Cannot set properties of null (setting 'disabled')")
  | Some b =>
      if loading then
        update b (set_disabled true);;
        update b (set_innerHTML spinner_html)
      else
        update b (set_disabled false);;
        original ← getAttribute b "data-original-text";
        current ← get_innerHTML b;
        update b (set_innerHTML (or_else original current))
  end.

(** What [storeOriginalText] does to one button. *)
Definition stored (e : element) : element :=
  set_attributes (<["data-original-text" := innerHTML e]> (attributes e)) e.

Fixpoint forEach {A : Type} (f : A -> M unit) (l : list A) : M unit :=
  match l with
  | [] => mret tt
  | x :: r => f x;; forEach f r
  end.

Definition storeOriginalText (buttons : list node) : M unit :=
  forEach (fun button =>
             html ← get_innerHTML button;
             setAttribute button "data-original-text" html)
          buttons.

End Page.

(** ** Example pages *)

Module Example.

Import Page.

Definition container : element := Element "container" "" false ∅ None [].

Definition find_container (sel : string) : option node :=
  if String.eqb sel ".container" then Some 0%nat else None.

(** A page whose only element is the default container. *)
Definition with_container : world :=
  Timer.World 0 Timer.empty
    (Page {[ 0%nat := container ]} 1%nat find_container [] [] []).

(** A page with a single button and no element of class [container]. *)
Definition without_container : world :=
  Timer.World 0 Timer.empty
    (Page {[ 0%nat := Element "btn" "Go" true ∅ None [] ]} 1%nat (fun _ => None)
          [] [] []).

(** A page with an empty close button and a labelled button. *)
Definition two_buttons : world :=
  Timer.World 0 Timer.empty
    (Page {[ 0%nat := Element "btn-close" "" false ∅ None [];
             1%nat := Element "btn" "Go" false ∅ None [] ]}
          2%nat (fun _ => None) [] [] []).

End Example.

(** ** What debounce and throttle let through *)

Module Delivery.

Section Spec.

Context {Args : Type}.
Variable delay : nat.

(** Call times in the order of the calls. *)
Fixpoint ascending (t : nat) (ts : list nat) : Prop :=
  match ts with
  | [] => True
  | t' :: r => (t <= t')%nat /\ ascending t' r
  end.

(** Debounce: the call [(t, a)] is delivered [delay] later unless the
    next call comes before that; [rest] are the calls that follow. *)
Fixpoint debounced (t : nat) (a : Args) (rest : list (nat * Args))
    : list (nat * Args) :=
  match rest with
  | [] => [((t + delay)%nat, a)]
  | (t', a') :: r =>
      if (t' <? t + delay)%nat then debounced t' a' r
      else ((t + delay)%nat, a) :: debounced t' a' r
  end.

(** Debounce: no call is made at the very time at which the timer of
    the call before it is due, where the browser may run either
    first. *)
Fixpoint clear_of_due (t : nat) (ts : list nat) : Prop :=
  match ts with
  | [] => True
  | t' :: r => t' <> (t + delay)%nat /\ clear_of_due t' r
  end.

(** Throttle: [free] is the end of the blackout that is on, if any.  A
    call passes when no blackout is on or when it is over. *)
Definition released (free : option nat) (t : nat) : bool :=
  match free with
  | Some f => (f <=? t)%nat
  | None => true
  end.

(** A call that passes starts a blackout of [delay], unless [func]
    throws. *)
Definition blackout_after (throws : Args -> bool) (free : option nat)
    (t : nat) (a : Args) : option nat :=
  if released free t then (if throws a then None else Some (t + delay)%nat)
  else free.

Fixpoint passed (throws : Args -> bool) (free : option nat)
    (cs : list (nat * Args)) : list (nat * Args) :=
  match cs with
  | [] => []
  | (t, a) :: r =>
      if released free t then (t, a) :: passed throws (blackout_after throws free t a) r
      else passed throws (blackout_after throws free t a) r
  end.

(** Throttle: no call is made at the very end of a blackout, where the
    browser may run the call or the timer first. *)
Fixpoint untied (throws : Args -> bool) (free : option nat)
    (cs : list (nat * Args)) : Prop :=
  match cs with
  | [] => True
  | (t, a) :: r => free <> Some t /\ untied throws (blackout_after throws free t a) r
  end.

(** Consecutive entries are at least [delay] apart. *)
Fixpoint spaced (l : list (nat * Args)) : Prop :=
  match l with
  | [] => True
  | x :: r =>
      match r with
      | [] => True
      | y :: _ => (fst x + delay <= fst y)%nat
      end /\ spaced r
  end.

(** The throttle wrapper with [log] delivered and the blackout that
    is on, if any, ending at [free]. *)
Definition tracks (w : Throttle.world Args) (free : option nat)
    (log : list (nat * Args)) : Prop :=
  match free with
  | Some f => Throttle.throttled w f log
  | None => Throttle.idle w log
  end.

(** The debounce wrapper between a call at [t] and its timer, with
    [done] already delivered. *)
Definition waiting (w : Debounce.world Args) (t : nat) (a : Args)
    (done : list (nat * Args)) : Prop :=
  exists h : nat,
    Timer.now w = t /\
    Debounce.calls (Timer.data w) = done /\
    Timer.pending (Timer.timers w)
    = [Timer.Entry h (t + delay) (Debounce.Later a)] /\
    Debounce.timeout (Timer.data w) = Some h.

End Spec.

End Delivery.

(** ** Sequences of page operations *)

Module Scenario.

Import Page.

(** [setLoading(el, true); setLoading(el, false)]. *)
Definition loading_cycle (b : node) (w : world) : world :=
  snd (setLoading (inr b) false (snd (setLoading (inr b) true w))).

(** [setLoading(el, true); storeOriginalText([el]); setLoading(el, false)]:
    the content is stored too late. *)
Definition store_while_loading (b : node) (w : world) : world :=
  snd (setLoading (inr b) false
         (snd (storeOriginalText [b] (snd (setLoading (inr b) true w))))).

End Scenario.

(** ** isInViewport

    Coordinates are finite numbers and the code only compares them, so
    they are taken as exact rationals. *)

Module Viewport.

(** [element.getBoundingClientRect()]. *)
Record rect := Rect { top : Q; left : Q; bottom : Q; right : Q }.

(** The sizes the function reads: [window.innerHeight],
    [window.innerWidth] and the client size of the document element. *)
Record window := Window {
  innerHeight : Q;
  innerWidth : Q;
  clientHeight : Q;
  clientWidth : Q
}.

(** [a || b] on numbers: zero is falsy. *)
Definition or_number (a b : Q) : Q := if Qeq_bool a 0 then b else a.

Definition viewHeight (v : window) : Q := or_number (innerHeight v) (clientHeight v).

Definition viewWidth (v : window) : Q := or_number (innerWidth v) (clientWidth v).

Definition isInViewport (r : rect) (v : window) : bool :=
  Qle_bool 0 (top r) &&
  Qle_bool 0 (left r) &&
  Qle_bool (bottom r) (viewHeight v) &&
  Qle_bool (right r) (viewWidth v).

End Viewport.

(** ** Page initialisation: tooltips, popovers, progress bars

    The part of the document that the [DOMContentLoaded] handler reads
    and writes: the attributes of the elements, the inline width of
    each element, and the tooltip and popover objects created so far.
    [document.querySelectorAll] and the CSS parser, which decides
    whether an assignment to [style.width] takes effect, are taken as
    given; [bootstrap] tells whether the Bootstrap library is loaded. *)

Module Widgets.

Definition node := nat.

Inductive error := ReferenceError (name : string).

Record dom := Dom {
  attributes : gmap node (gmap string string);
  select_all : string -> list node;
  accepts_width : string -> bool;
  style_width : gmap node string;
  bootstrap : bool;
  tooltips : list node;
  popovers : list node
}.

Inductive result (A : Type) :=
| Ok (v : A)
| Throw (e : error).

Arguments Ok {A} v.
Arguments Throw {A} e.

(** [el.getAttribute(name)]; [None] is [null]. *)
Definition getAttribute (d : dom) (el : node) (name : string) : option string :=
  attributes d !! el ≫= fun a => a !! name.

(** [el.style.width = v]: a value that the CSS parser rejects is
    ignored. *)
Definition set_width (el : node) (v : string) (d : dom) : dom :=
  if accepts_width d v then
    Dom (attributes d) (select_all d) (accepts_width d)
        (<[el := v]> (style_width d)) (bootstrap d) (tooltips d) (popovers d)
  else d.

(** The body of the [forEach] callback of [setProgressBars]: an absent
    or empty attribute is falsy. *)
Definition set_bar (d : dom) (bar : node) : dom :=
  match getAttribute d bar "data-progress" with
  | Some progress =>
      if String.eqb progress "" then d else set_width bar (progress +:+ "%") d
  | None => d
  end.

Definition setProgressBars (d : dom) : dom :=
  foldl set_bar d (select_all d ".progress-bar[data-progress]").

Definition tooltip_selector : string :=
  "[data-bs-toggle=" +:+ Page.dq +:+ "tooltip" +:+ Page.dq +:+ "]".

Definition popover_selector : string :=
  "[data-bs-toggle=" +:+ Page.dq +:+ "popover" +:+ Page.dq +:+ "]".

(** [new bootstrap.Tooltip(el)]: a [ReferenceError] when the library is
    not loaded. *)
Definition new_Tooltip (el : node) (d : dom) : result unit * dom :=
  if bootstrap d then
    (Ok tt, Dom (attributes d) (select_all d) (accepts_width d) (style_width d)
                (bootstrap d) (tooltips d ++ [el]) (popovers d))
  else (Throw (ReferenceError "bootstrap"), d).

Definition new_Popover (el : node) (d : dom) : result unit * dom :=
  if bootstrap d then
    (Ok tt, Dom (attributes d) (select_all d) (accepts_width d) (style_width d)
                (bootstrap d) (tooltips d) (popovers d ++ [el]))
  else (Throw (ReferenceError "bootstrap"), d).

(** [list.map(f)] for its effects: stops at the first exception. *)
Fixpoint map_each (f : node -> dom -> result unit * dom) (l : list node) (d : dom)
    : result unit * dom :=
  match l with
  | [] => (Ok tt, d)
  | x :: r =>
      match f x d with
      | (Ok _, d') => map_each f r d'
      | (Throw e, d') => (Throw e, d')
      end
  end.

(** The [DOMContentLoaded] handler. *)
Definition onContentLoaded (d : dom) : result unit * dom :=
  match map_each new_Tooltip (select_all d tooltip_selector) d with
  | (Throw e, d1) => (Throw e, d1)
  | (Ok _, d1) =>
      match map_each new_Popover (select_all d1 popover_selector) d1 with
      | (Throw e, d2) => (Throw e, d2)
      | (Ok _, d2) => (Ok tt, setProgressBars d2)
      end
  end.

(** The width that [setProgressBars] gives to [bar], if any. *)
Definition bar_width (d : dom) (bar : node) : option string :=
  match getAttribute d bar "data-progress" with
  | Some progress =>
      if String.eqb progress "" then None
      else if accepts_width d (progress +:+ "%") then Some (progress +:+ "%")
      else None
  | None => None
  end.

End Widgets.

(** ** downloadFile

    Elements are the element objects of the page model.  The registry
    of object URLs maps each URL made by [URL.createObjectURL] to its
    blob until [URL.revokeObjectURL] takes it out; [downloads] records
    what a click on an anchor with a [download] attribute saves: the
    file name and the blob behind its [href] at the time of the click. *)

Module Download.

Import Page.

Record blob := Blob { content : string; type : string }.

(** The timer callback captures the anchor and the URL. *)
Inductive closure := Cleanup (a : node) (url : string).

Record env := Env {
  elements : gmap node element;
  next_node : node;
  body : option node;
  object_urls : gmap string blob;
  next_url : nat;
  downloads : list (string * blob);
  uncaught : list error
}.

Definition world := Timer.world closure env.

Definition M (A : Type) : Type := world -> result A * world.

#[export] Instance M_ret : MRet M := fun A v w => (Ok v, w).

#[export] Instance M_bind : MBind M := fun A B f m w =>
  match m w with
  | (Ok v, w') => f v w'
  | (Throw e, w') => (Throw e, w')
  end.

Definition set_elements (h : gmap node element) (w : world) : world :=
  let d := Timer.data w in
  Timer.set_data
    (Env h (next_node d) (body d) (object_urls d) (next_url d) (downloads d)
         (uncaught d)) w.

Definition set_object_urls (u : gmap string blob) (w : world) : world :=
  let d := Timer.data w in
  Timer.set_data
    (Env (elements d) (next_node d) (body d) u (next_url d) (downloads d)
         (uncaught d)) w.

(** The URL that [createObjectURL] makes from its counter. *)
Definition mint (n : nat) : string :=
  "blob:" +:+ Format.string_of_N (N.of_nat n).

(** [window.URL.createObjectURL(blob)]. *)
Definition createObjectURL (b : blob) : M string := fun w =>
  let d := Timer.data w in
  let url := mint (next_url d) in
  (Ok url,
   Timer.set_data
     (Env (elements d) (next_node d) (body d) (<[url := b]> (object_urls d))
          (S (next_url d)) (downloads d) (uncaught d)) w).

(** [window.URL.revokeObjectURL(url)]. *)
Definition revokeObjectURL (url : string) : M unit := fun w =>
  (Ok tt, set_object_urls (delete url (object_urls (Timer.data w))) w).

(** [document.createElement('a')]. *)
Definition createElement (tag : string) : M node := fun w =>
  let d := Timer.data w in
  let n := next_node d in
  (Ok n,
   Timer.set_data
     (Env (<[n := empty_element]> (elements d)) (S n) (body d) (object_urls d)
          (next_url d) (downloads d) (uncaught d)) w).

(** [a.href = v] and [a.download = v] set the attribute of that name. *)
Definition setAttribute (n : node) (name value : string) : M unit := fun w =>
  (Ok tt,
   set_elements
     (alter (fun e => set_attributes (<[name := value]> (attributes e)) e) n
            (elements (Timer.data w))) w).

(** [document.body]: [null] while the page has no body yet. *)
Definition get_body : M (option node) := fun w => (Ok (body (Timer.data w)), w).

(** [parent.appendChild(child)]. *)
Definition appendChild (parent child : node) : M unit := fun w =>
  let h1 := detach child (elements (Timer.data w)) in
  let h2 := alter (fun ep => set_childNodes (insert_child child None (childNodes ep)) ep)
                  parent h1 in
  let h3 := alter (set_parentNode (Some parent)) child h2 in
  (Ok tt, set_elements h3 w).

(** [parent.removeChild(child)]: a [NotFoundError] when [child] is not
    a child of [parent]. *)
Definition removeChild (parent child : node) : M unit := fun w =>
  match elements (Timer.data w) !! child with
  | Some e =>
      if bool_decide (parentNode e = Some parent) then
        (Ok tt, set_elements (detach child (elements (Timer.data w))) w)
      else (Throw (DOMException "NotFoundError"), w)
  | None => (Throw (DOMException "NotFoundError"), w)
  end.

(** [a.click()] on an anchor that has [href] and [download]: the blob
    behind the URL is saved under the given name. *)
Definition click (a : node) : M unit := fun w =>
  let d := Timer.data w in
  match elements d !! a with
  | Some e =>
      match attributes e !! "href", attributes e !! "download" with
      | Some url, Some name =>
          match object_urls d !! url with
          | Some b =>
              (Ok tt,
               Timer.set_data
                 (Env (elements d) (next_node d) (body d) (object_urls d)
                      (next_url d) (downloads d ++ [(name, b)]) (uncaught d)) w)
          | None => (Ok tt, w)
          end
      | _, _ => (Ok tt, w)
      end
  | None => (Ok tt, w)
  end.

Definition setTimeout (cb : closure) (delay : nat) : M nat := fun w =>
  let '(h, q) := Timer.setTimeout cb delay (Timer.now w) (Timer.timers w) in
  (Ok h, Timer.set_timers q w).

Definition cleanup_delay : nat := 100.

Definition downloadFile (content fileName mimeType : string) : M unit :=
  let blob := Blob content mimeType in
  url ← createObjectURL blob;
  a ← createElement "a";
  setAttribute a "href" url;;
  setAttribute a "download" fileName;;
  b ← get_body;
  match b with
  | None => fun w => (Throw (TypeError "Cannot read properties of null (reading 'appendChild')"), w)
  | Some b =>
      appendChild b a;;
      click a;;
      setTimeout (Cleanup a url) cleanup_delay;;
      mret tt
  end.

(** The callback given to [setTimeout]. *)
Definition cleanup (a : node) (url : string) : M unit :=
  b ← get_body;
  match b with
  | None => fun w => (Throw (TypeError "Cannot read properties of null (reading 'removeChild')"), w)
  | Some b =>
      removeChild b a;;
      revokeObjectURL url
  end.

(** An exception that escapes the callback is reported and the event
    loop goes on. *)
Definition handler (c : closure) (w : world) : world :=
  match c with
  | Cleanup a url =>
      match cleanup a url w with
      | (Ok _, w') => w'
      | (Throw e, w') =>
          let d := Timer.data w' in
          Timer.set_data
            (Env (elements d) (next_node d) (body d) (object_urls d) (next_url d)
                 (downloads d) (uncaught d ++ [e])) w'
      end
  end.

(** The anchor as [downloadFile] leaves it in the body [b]. *)
Definition anchor (url fileName : string) (b : node) : element :=
  Element "" "" false (<["download" := fileName]> (<["href" := url]> ∅)) (Some b) [].

(** Some other script takes the element out of the tree. *)
Definition removed_elsewhere (a : node) (w : world) : world :=
  set_elements (detach a (elements (Timer.data w))) w.

(** A page whose body is its only element, and the same page before
    the body exists. *)
Definition page_with_body : world :=
  Timer.World 0 Timer.empty
    (Env {[ 0%nat := Element "" "" false ∅ None [] ]} 1%nat (Some 0%nat) ∅ 0 [] []).

Definition page_without_body : world :=
  Timer.World 0 Timer.empty (Env ∅ 0%nat None ∅ 0 [] []).

End Download.

(** ** Facts about strings *)

Section StrFacts.

Lemma length_append (s t : string) :
  String.length (s +:+ t) = (String.length s + String.length t)%nat.
Proof. induction s as [|c s IH]; simpl; [reflexivity | now rewrite IH]. Qed.

Lemma append_assoc (s t u : string) : (s +:+ t) +:+ u = s +:+ (t +:+ u).
Proof.
  induction s as [|c s IH]; [reflexivity |].
  change (String c ((s +:+ t) +:+ u) = String c (s +:+ (t +:+ u))).
  now rewrite IH.
Qed.

Lemma substring_all (t : string) :
  String.substring 0 (String.length t) t = t.
Proof. induction t as [|c t IH]; simpl; [reflexivity | now rewrite IH]. Qed.

Lemma substring_append_r (s t : string) :
  String.substring (String.length s) (String.length t) (s +:+ t) = t.
Proof.
  induction s as [|c s IH]; simpl; [apply substring_all | exact IH].
Qed.

Lemma ends_with_append (s t : string) : Str.ends_with (s +:+ t) t = true.
Proof.
  unfold Str.ends_with. rewrite length_append.
  replace (String.length s + String.length t - String.length t)%nat
    with (String.length s) by lia.
  rewrite substring_append_r, String.eqb_refl.
  rewrite andb_true_r. apply Nat.leb_le. lia.
Qed.

Lemma before_dot_append (s t : string) :
  Str.no_dot s = true -> Str.before_dot (s +:+ "." +:+ t) = s.
Proof.
  induction s as [|c s IH]; simpl; [reflexivity |].
  intros [Hc Hs]%andb_true_iff. apply negb_true_iff in Hc.
  rewrite Hc. f_equal. auto.
Qed.

Lemma after_dot_append (s t : string) :
  Str.no_dot s = true -> Str.after_dot (s +:+ "." +:+ t) = Some t.
Proof.
  induction s as [|c s IH]; simpl; [reflexivity |].
  intros [Hc Hs]%andb_true_iff. apply negb_true_iff in Hc.
  rewrite Hc. auto.
Qed.



Lemma no_dot_string_of_uint (u : Decimal.uint) :
  Str.no_dot (NilEmpty.string_of_uint u) = true.
Proof. induction u; simpl; auto. Qed.

End StrFacts.

(** ** Facts about formatFileSize *)

Section FormatFacts.

Import Format.

Lemma pow_k_pos (i : nat) : 0 < pow_k i.
Proof. unfold pow_k, k. apply Z.pow_pos_nonneg; lia. Qed.

Lemma pow_k_two (i : nat) : pow_k i = 2 ^ (10 * Z.of_nat i).
Proof.
  unfold pow_k, k. change 1024 with (2 ^ 10).
  rewrite <- Z.pow_mul_r by lia. reflexivity.
Qed.

(** [log_index b] is the floor of the base-1024 logarithm of [b]. *)
Lemma log_index_spec (b : Z) :
  0 < b -> pow_k (log_index b) <= b < pow_k (S (log_index b)).
Proof.
  intros Hb. rewrite !pow_k_two. unfold log_index.
  change (Z.log2 k) with 10.
  pose proof (Z.log2_spec b Hb) as [Hlo Hhi].
  pose proof (Z.log2_nonneg b) as HL.
  set (L := Z.log2 b) in *.
  assert (Hq : 0 <= L / 10) by (apply Z.div_pos; lia).
  pose proof (Z.div_mod L 10 ltac:(lia)) as Hdm.
  pose proof (Z.mod_pos_bound L 10 ltac:(lia)) as Hm.
  rewrite Nat2Z.inj_succ, Z2Nat.id by lia.
  split.
  - transitivity (2 ^ L); [| exact Hlo].
    apply Z.pow_le_mono_r; lia.
  - eapply Z.lt_le_trans; [exact Hhi |].
    apply Z.pow_le_mono_r; lia.
Qed.

Lemma log_index_small (b : Z) (i : nat) :
  0 < b -> b < pow_k i -> (log_index b < i)%nat.
Proof.
  intros Hb Hlt. pose proof (log_index_spec b Hb) as [Hlo _].
  rewrite !pow_k_two in *.
  assert (H : 2 ^ (10 * Z.of_nat (log_index b)) < 2 ^ (10 * Z.of_nat i)) by lia.
  apply Z.pow_lt_mono_r_iff in H; lia.
Qed.

Lemma log_index_unique (b : Z) (i : nat) :
  pow_k i <= b < pow_k (S i) -> log_index b = i.
Proof.
  intros [Hlo Hhi].
  assert (Hb : 0 < b) by (pose proof (pow_k_pos i); lia).
  pose proof (log_index_spec b Hb) as [Hlo' Hhi'].
  rewrite !pow_k_two in *.
  assert (H1 : 2 ^ (10 * Z.of_nat i) < 2 ^ (10 * Z.of_nat (S (log_index b)))) by lia.
  assert (H2 : 2 ^ (10 * Z.of_nat (log_index b)) < 2 ^ (10 * Z.of_nat (S i))) by lia.
  apply Z.pow_lt_mono_r_iff in H1; [| lia | lia].
  apply Z.pow_lt_mono_r_iff in H2; lia.
Qed.

Lemma unit_string_in_sizes (i : nat) :
  (i < 5)%nat -> unit_string i ∈ sizes /\ sizes !! i = Some (unit_string i).
Proof.
  intros Hi. unfold unit_string.
  do 5 (destruct i as [|i]; [simpl; split; [set_solver | reflexivity] |]).
  lia.
Qed.

Lemma print_frac_length (w : nat) (m : N) : String.length (print_frac w m) = w.
Proof. induction w as [|w IH]; simpl; [reflexivity | now rewrite IH]. Qed.

Lemma parse_digits_string_of_N (n : N) : parse_digits (string_of_N n) = Some n.
Proof.
  unfold parse_digits, string_of_N.
  rewrite NilEmpty.usu. simpl. now rewrite Unsigned.of_to.
Qed.

Lemma small_N_cases (d : N) :
  (d < 10)%N ->
  d ∈ [0; 1; 2; 3; 4; 5; 6; 7; 8; 9]%N.
Proof.
  intros Hd.
  destruct d as [|p]; [set_solver |].
  do 4 (destruct p as [p|p|]; try lia; try set_solver).
Qed.

Lemma parse_digits_print_frac2 (n : N) :
  parse_digits (print_frac 2 n) = Some (n mod 100)%N.
Proof.
  assert (Hsplit : (n mod 100 = 10 * ((n / 10) mod 10) + n mod 10)%N).
  { pose proof (N.div_mod n 10 ltac:(lia)) as H1.
    pose proof (N.div_mod (n / 10) 10 ltac:(lia)) as H2.
    pose proof (N.mod_lt n 10 ltac:(lia)).
    pose proof (N.mod_lt (n / 10) 10 ltac:(lia)).
    symmetry. apply N.mod_unique with (q := (n / 10 / 10)%N); lia. }
  rewrite Hsplit. simpl print_frac.
  change (10 ^ N.of_nat 1)%N with 10%N. change (10 ^ N.of_nat 0)%N with 1%N.
  rewrite N.div_1_r.
  pose proof (small_N_cases _ (N.mod_lt (n / 10) 10 ltac:(lia))) as H1.
  pose proof (small_N_cases _ (N.mod_lt n 10 ltac:(lia))) as H2.
  set (d1 := ((n / 10) mod 10)%N) in *. set (d2 := (n mod 10)%N) in *.
  clearbody d1 d2. clear Hsplit.
  repeat (apply elem_of_cons in H1 as [-> | H1]);
    [ .. | now apply elem_of_nil in H1];
    (repeat (apply elem_of_cons in H2 as [-> | H2]);
     [ .. | now apply elem_of_nil in H2]; reflexivity).
Qed.

Lemma parseFloat_toFixed2 (num den : Z) :
  parseFloat (toFixed2 num den) = Some (Decimal (toFixed_hundredths num den) 2).
Proof.
  unfold parseFloat, toFixed2.
  set (n := toFixed_hundredths num den).
  assert (Hnd : Str.no_dot (string_of_N (n / 100)) = true)
    by apply no_dot_string_of_uint.
  rewrite before_dot_append, after_dot_append by exact Hnd.
  rewrite parse_digits_string_of_N, parse_digits_print_frac2, print_frac_length.
  do 2 f_equal. change (10 ^ N.of_nat 2)%N with 100%N.
  pose proof (N.div_mod n 100 ltac:(lia)). lia.
Qed.










(** Up to 1024^5 - 1024 the unit is the entry of [sizes] selected by
    the floor of the base-1024 logarithm, and zero is written
    literally. *)
Lemma formatFileSize_unit_below_PB (b : Z) :
  0 <= b <= pow_k 5 - 1024 ->
  exists u : string,
    u ∈ sizes /\
    Str.ends_with (formatFileSize b) u = true /\
    (b = 0 -> formatFileSize b = "0 Bytes") /\
    (0 < b ->
     sizes !! log_index b = Some u /\
     pow_k (log_index b) <= b < pow_k (S (log_index b))).
Proof.
  intros [Hlo Hhi']. assert (Hhi : b < pow_k 5) by lia. unfold formatFileSize.
  destruct (Z.eqb_spec b 0) as [-> | Hne].
  - exists "Bytes". split; [set_solver |].
    split; [reflexivity |]. split; [reflexivity | lia].
  - assert (Hb : 0 < b) by lia.
    pose proof (log_index_small b 5 Hb Hhi) as Hi.
    destruct (unit_string_in_sizes _ Hi) as [Hin Hlk].
    exists (unit_string (log_index b)). split; [exact Hin |].
    split; [| split; [lia |]].
    + cbv zeta. rewrite <- append_assoc. apply ends_with_append.
    + intros _. split; [exact Hlk | now apply log_index_spec].
Qed.

(** C1. At 2^51 bytes (two pebibytes) the index computed from the
    logarithm is 5, one past the end of [sizes]: the result is the
    string "2 undefined", which ends in none of Bytes, KB, MB, GB, TB. *)
Theorem formatFileSize_above_TB :
  log_index 2251799813685248 = 5%nat /\
  formatFileSize 2251799813685248 = "2 undefined" /\
  forallb (fun u => negb (Str.ends_with (formatFileSize 2251799813685248) u))
          sizes = true.
Proof. repeat split; vm_compute; reflexivity. Qed.




End FormatFacts.

(** ** Facts about debounce *)

Section DebounceFacts.

Import Debounce.

Context {Args : Type}.
Variable wait : nat.

Lemma advance_armed_early (w : Debounce.world Args) (t t' : nat) (a : Args) :
  armed wait w t a -> (t <= t' < t + wait)%nat ->
  Timer.advance handler t' w = Timer.World t' (Timer.timers w) (Timer.data w).
Proof.
  intros (h & Hnow & _ & Hp & _) Ht.
  destruct w as [n [nid pend] d]; simpl in *; subst.
  unfold Timer.advance; simpl. unfold Timer.take_due; simpl.
  destruct (Nat.leb_spec (t + wait) t'); [lia |]. simpl.
  f_equal. lia.
Qed.

Lemma call_at_armed (w : Debounce.world Args) (t t' : nat) (a a' : Args) :
  armed wait w t a -> (t <= t' < t + wait)%nat ->
  armed wait (call_at wait w (t', a')) t' a'.
Proof.
  intros Harm Ht. unfold call_at; simpl.
  rewrite (advance_armed_early w t t' a Harm Ht).
  destruct Harm as (h & Hnow & Hc & Hp & Hto).
  destruct w as [n [nid pend] [to cs]]; simpl in *; subst.
  unfold executedFunction; simpl. rewrite Nat.eqb_refl. simpl.
  exists nid. repeat split; reflexivity.
Qed.

Lemma call_at_initial (t0 : nat) (a0 : Args) :
  armed wait (call_at wait initial (t0, a0)) t0 a0.
Proof. exists 1%nat. repeat split; reflexivity. Qed.

Lemma run_armed (cs : list (nat * Args)) :
  forall (w : Debounce.world Args) (t : nat) (a : Args),
    armed wait w t a -> burst wait t (map fst cs) ->
    armed wait (run wait cs w) (fst (List.last cs (t, a))) (snd (List.last cs (t, a))).
Proof.
  induction cs as [|[t' a'] cs IH]; intros w t a Harm Hb.
  - exact Harm.
  - destruct Hb as [Ht Hb]. simpl run.
    pose proof (call_at_armed w t t' a a' Harm Ht) as Harm'.
    specialize (IH _ _ _ Harm' Hb).
    replace (List.last ((t', a') :: cs) (t, a)) with (List.last cs (t', a'));
      [exact IH |].
    clear. destruct cs as [|c cs]; [reflexivity |].
    simpl. revert c. induction cs as [|c' cs IH]; intros c; [reflexivity |].
    simpl. apply (IH c').
Qed.

Lemma advance_armed_late (w : Debounce.world Args) (t T : nat) (a : Args) :
  armed wait w t a -> (t + wait <= T)%nat ->
  calls (Timer.data (Timer.advance handler T w)) = [((t + wait)%nat, a)].
Proof.
  intros (h & Hnow & Hc & Hp & Hto) HT.
  destruct w as [n [nid pend] [to cs]]; simpl in *; subst.
  unfold Timer.advance; simpl. unfold Timer.take_due; simpl.
  destruct (Nat.leb_spec (t + wait) T); [| lia]. simpl.
  unfold func; simpl. do 2 f_equal. lia.
Qed.

Lemma advance_armed_before (w : Debounce.world Args) (t T : nat) (a : Args) :
  armed wait w t a -> (T < t + wait)%nat ->
  calls (Timer.data (Timer.advance handler T w)) = [].
Proof.
  intros (h & Hnow & Hc & Hp & Hto) HT.
  destruct w as [n [nid pend] [to cs]]; simpl in *; subst.
  unfold Timer.advance; simpl. unfold Timer.take_due; simpl.
  destruct (Nat.leb_spec (t + wait) T); [lia | reflexivity].
Qed.

(** C3. A burst of calls of the debounced wrapper, each less than
    [wait] after the previous one, leads to exactly one invocation of
    [func]: it happens [wait] after the last call of the burst and
    receives the arguments of that call.  Before that moment [func] has
    not been invoked at all. *)
Theorem debounce_fires_once
    (t0 : nat) (a0 : Args) (rest : list (nat * Args)) (T : nat) :
  burst wait t0 (map fst rest) ->
  let w := run wait ((t0, a0) :: rest) initial in
  let tn := fst (List.last rest (t0, a0)) in
  let an := snd (List.last rest (t0, a0)) in
  ((tn + wait <= T)%nat ->
   calls (Timer.data (Timer.advance handler T w)) = [((tn + wait)%nat, an)]) /\
  ((T < tn + wait)%nat ->
   calls (Timer.data (Timer.advance handler T w)) = []).
Proof.
  intros Hb w tn an.
  assert (Harm : armed wait w tn an).
  { unfold w, tn, an.
    change (run wait ((t0, a0) :: rest) initial)
      with (run wait rest (call_at wait initial (t0, a0))).
    apply run_armed; [apply call_at_initial | exact Hb]. }
  split; intros HT.
  - now apply advance_armed_late.
  - now apply advance_armed_before with (t := tn) (a := an).
Qed.

End DebounceFacts.

Lemma debounce_fires_once_witness :
  Debounce.burst 300 0 (map fst [(100, "b"); (350, "c")]%nat) /\
  Debounce.calls
    (Timer.data
       (Timer.advance Debounce.handler 1000
          (Debounce.run 300 [(0, "a"); (100, "b"); (350, "c")]%nat Debounce.initial)))
  = [(650%nat, "c")].
Proof.
  assert (H : Debounce.burst 300 0 (map fst [(100, "b"); (350, "c")]%nat))
    by (simpl; lia).
  split; [exact H |].
  apply (debounce_fires_once 300 0%nat "a" [(100, "b"); (350, "c")]%nat 1000 H).
  simpl; lia.
Defined.

(** ** Facts about throttle *)

Section ThrottleFacts.

Import Throttle.

Context {Args : Type}.
Variable limit : nat.
Variable throws : Args -> bool.

(** A call during the blackout is dropped. *)
Lemma call_at_throttled (w : Throttle.world Args) (free : nat)
    (cs : list (nat * Args)) (c : nat * Args) :
  throttled w free cs -> (fst c < free)%nat ->
  throttled (call_at limit throws w c) free cs /\
  Timer.now (call_at limit throws w c) = Nat.max (Timer.now w) (fst c).
Proof.
  intros (h & Hnow & Hin & Hc & Hp) Ht.
  destruct w as [n [nid pend] [it calls0]]; simpl in *; subst.
  unfold call_at, Timer.advance; simpl. unfold Timer.take_due; simpl.
  destruct (Nat.leb_spec free (fst c)); [lia |]. simpl.
  unfold wrapper; simpl.
  split; [| reflexivity].
  exists h. repeat split; simpl; try reflexivity. lia.
Qed.


(** The first call once the blackout is over invokes [func] at once. *)
Lemma call_at_released (w : Throttle.world Args) (free t1 : nat)
    (cs : list (nat * Args)) (a1 : Args) :
  throttled w free cs -> (free <= t1)%nat ->
  invoked limit throws (call_at limit throws w (t1, a1)) t1 a1 (cs ++ [(t1, a1)]).
Proof.
  intros (h & Hnow & Hin & Hc & Hp) Ht.
  destruct w as [n [nid pend] [it calls0]]; simpl in *; subst.
  unfold call_at, Timer.advance; simpl. unfold Timer.take_due; simpl.
  destruct (Nat.leb_spec free t1); [| lia]. simpl.
  rewrite Nat.eqb_refl. simpl.
  replace (Nat.max (Nat.max n free) t1) with t1 by lia.
  unfold invoked, wrapper, func. simpl.
  destruct (throws a1); simpl.
  - split; [reflexivity |]. repeat split; reflexivity.
  - split; [reflexivity |]. exists nid. repeat split; simpl; try reflexivity. lia.
Qed.

(** So does a call made while no blackout is on. *)
Lemma call_at_idle (w : Throttle.world Args) (t1 : nat)
    (cs : list (nat * Args)) (a1 : Args) :
  idle w cs -> (Timer.now w <= t1)%nat ->
  invoked limit throws (call_at limit throws w (t1, a1)) t1 a1 (cs ++ [(t1, a1)]).
Proof.
  intros (Hin & Hc & Hp) Ht.
  destruct w as [n [nid pend] [it calls0]]; simpl in *; subst.
  unfold call_at, Timer.advance; simpl.
  replace (Nat.max n t1) with t1 by lia.
  unfold invoked, wrapper, func. simpl.
  destruct (throws a1); simpl.
  - split; [reflexivity |]. repeat split; reflexivity.
  - split; [reflexivity |]. exists nid. repeat split; simpl; try reflexivity. lia.
Qed.

Lemma initial_idle : idle (@initial Args) [].
Proof. repeat split; reflexivity. Qed.


End ThrottleFacts.



(** ** Facts about the timer queue *)

Section TimerFacts.

Import Timer.

Context {C D : Type}.

Lemma earliest_spec (l : list (entry C)) (e : entry C) :
  earliest l = Some e ->
  e ∈ l /\ forall e' : entry C, e' ∈ l -> (due e <= due e')%nat.
Proof.
  revert e. induction l as [|x l IH]; intros e; simpl; [discriminate |].
  destruct (earliest l) as [m|] eqn:E.
  - destruct (IH m eq_refl) as [Hin Hmin].
    destruct (Nat.ltb_spec (due m) (due x)); intros [= <-].
    + split; [now apply list_elem_of_further |].
      intros e' [-> | He']%elem_of_cons; [lia | auto].
    + split; [apply list_elem_of_here |].
      intros e' [-> | He']%elem_of_cons; [lia |].
      specialize (Hmin e' He'). lia.
  - intros [= <-]. destruct l as [|y l]; [| simpl in E; destruct (earliest l);
      [destruct (due _ <? due y)%nat |]; discriminate].
    split; [apply list_elem_of_here |].
    intros e' [-> | He']%elem_of_cons; [lia | inversion He'].
Qed.


Lemma take_due_Some (limit : nat) (q q' : queue C) (e : entry C) :
  take_due limit q = Some (e, q') ->
  e ∈ pending q /\ (due e <= limit)%nat /\
  q' = clearTimeout (Some (id e)) q /\
  (forall e' : entry C, e' ∈ pending q -> (due e <= due e')%nat).
Proof.
  unfold take_due. destruct (earliest (pending q)) as [m|] eqn:E; [| discriminate].
  destruct (Nat.leb_spec (due m) limit); [| discriminate].
  intros [= <- <-]. destruct (earliest_spec _ _ E). auto.
Qed.


Lemma pending_clearTimeout (i : nat) (q : queue C) (e : entry C) :
  e ∈ pending (clearTimeout (Some i) q) <-> e ∈ pending q /\ id e <> i.
Proof.
  simpl. rewrite list_elem_of_In, filter_In, <- list_elem_of_In.
  rewrite negb_true_iff, Nat.eqb_neq. reflexivity.
Qed.


Variable handler : C -> world C D -> world C D.

(** A property kept by every callback run is kept by the loop. *)
Lemma fire_invariant (I : world C D -> Prop) (limit : nat) :
  (forall (w : world C D) (e : entry C) (q : queue C),
     I w -> take_due limit (timers w) = Some (e, q) ->
     I (handler (callback e) (World (Nat.max (now w) (due e)) q (data w)))) ->
  forall (fuel : nat) (w : world C D), I w -> I (fire handler fuel limit w).
Proof.
  intros Hstep. induction fuel as [|fuel IH]; intros w Hw; simpl; [exact Hw |].
  destruct (take_due limit (timers w)) as [[e q]|] eqn:E; [| exact Hw].
  apply IH. now apply Hstep.
Qed.


End TimerFacts.

(** ** Facts about the page operations *)

Section PageFacts.

Import Page.

Lemma set_innerHTML_same (e : element) : set_innerHTML (innerHTML e) e = e.
Proof. now destruct e. Qed.

Lemma els_put_els (h : gmap node element) (w : world) : els (put_els h w) = h.
Proof. reflexivity. Qed.

Lemma put_els_put_els (h h' : gmap node element) (w : world) :
  put_els h (put_els h' w) = put_els h w.
Proof. reflexivity. Qed.

Lemma alter_lookup_insert (f : element -> element) (b : node) (e : element)
    (h : gmap node element) :
  h !! b = Some e -> alter f b h = <[b := f e]> h.
Proof.
  intros Hb. apply map_eq. intros i. destruct (decide (i = b)) as [-> | Hne].
  - now rewrite lookup_alter_eq, lookup_insert_eq, Hb.
  - now rewrite lookup_alter_ne, lookup_insert_ne by congruence.
Qed.

Lemma or_else_nonempty (v b : string) : v <> "" -> or_else (Some v) b = v.
Proof.
  intros Hv. unfold or_else.
  destruct (String.eqb_spec v ""); [contradiction | reflexivity].
Qed.

Lemma setLoading_on (w : world) (b : node) (e : element) :
  els w !! b = Some e ->
  setLoading (inr b) true w
  = (Ok tt,
     put_els (<[b := set_innerHTML spinner_html (set_disabled true e)]> (els w)) w).
Proof.
  intros Hb.
  unfold setLoading, mbind, M_bind, mret, M_ret, update. simpl.
  rewrite (alter_lookup_insert _ _ _ _ Hb).
  rewrite put_els_put_els, els_put_els.
  rewrite (alter_lookup_insert _ b (set_disabled true e)) by apply lookup_insert_eq.
  now rewrite insert_insert_eq.
Qed.

Lemma setLoading_off (w : world) (b : node) (e : element) :
  els w !! b = Some e ->
  setLoading (inr b) false w
  = (Ok tt,
     put_els
       (<[b := set_innerHTML
                 (or_else (attributes e !! "data-original-text") (innerHTML e))
                 (set_disabled false e)]> (els w)) w).
Proof.
  intros Hb.
  unfold setLoading, mbind, M_bind, mret, M_ret, update, getAttribute,
    get_innerHTML. simpl.
  rewrite (alter_lookup_insert _ _ _ _ Hb).
  rewrite !els_put_els, lookup_insert_eq. simpl.
  rewrite els_put_els, lookup_insert_eq. simpl.
  rewrite put_els_put_els, els_put_els.
  rewrite (alter_lookup_insert _ b (set_disabled false e)) by apply lookup_insert_eq.
  now rewrite insert_insert_eq.
Qed.

(** C6. [isValidUrl(s)] never throws, leaves the page as it is, and
    returns [true] exactly when the URL constructor accepts [s]. *)
Theorem isValidUrl_iff_parses {url : Type} (parse_url : string -> option url)
    (s : string) (w : world) :
  exists b : bool,
    isValidUrl parse_url s w = (Ok b, w) /\
    (b = true <-> exists u : url, new_URL parse_url s w = (Ok u, w)) /\
    (b = true <-> is_Some (parse_url s)).
Proof.
  unfold isValidUrl, try_catch, new_URL, mbind, M_bind, mret, M_ret.
  destruct (parse_url s) as [u|] eqn:E.
  - exists true. split; [reflexivity |].
    split; split; intros _; [now exists u | reflexivity | now exists u | reflexivity].
  - exists false. split; [reflexivity |].
    split; split; try discriminate.
    + intros [u [=]].
    + intros [u [=]].
Qed.

(** C9. On an element that has no [data-original-text] attribute,
    [setLoading(el, false)] enables the element and leaves its content
    as it is; in particular the spinner put there by
    [setLoading(el, true)] stays. *)
Theorem setLoading_off_without_original (w : world) (b : node) (e : element) :
  els w !! b = Some e ->
  attributes e !! "data-original-text" = None ->
  (setLoading (inr b) false w
   = (Ok tt, put_els (<[b := set_disabled false e]> (els w)) w)) /\
  innerHTML (set_disabled false e) = innerHTML e /\
  disabled (set_disabled false e) = false /\
  (exists w' e',
     setLoading (inr b) false (snd (setLoading (inr b) true w)) = (Ok tt, w') /\
     els w' !! b = Some e' /\
     innerHTML e' = spinner_html /\
     disabled e' = false).
Proof.
  intros Hb Ha.
  split.
  { rewrite (setLoading_off w b e Hb), Ha. simpl or_else.
    change (innerHTML e) with (innerHTML (set_disabled false e)).
    now rewrite set_innerHTML_same. }
  split; [reflexivity |]. split; [reflexivity |].
  rewrite (setLoading_on w b e Hb). simpl snd.
  eexists _, _. split.
  { apply setLoading_off. rewrite els_put_els. apply lookup_insert_eq. }
  split; [rewrite els_put_els; apply lookup_insert_eq |].
  simpl. rewrite Ha. split; reflexivity.
Qed.

Lemma setLoading_off_without_original_witness :
  els Example.without_container !! 0%nat = Some (Element "btn" "Go" true ∅ None []) /\
  attributes (Element "btn" "Go" true ∅ None []) !! "data-original-text" = None /\
  setLoading (inr 0%nat) false Example.without_container
  = (Ok tt,
     put_els (<[0%nat := set_disabled false (Element "btn" "Go" true ∅ None [])]>
                (els Example.without_container))
             Example.without_container).
Proof.
  assert (H1 : els Example.without_container !! 0%nat
               = Some (Element "btn" "Go" true ∅ None [])) by reflexivity.
  assert (H2 : attributes (Element "btn" "Go" true ∅ None []) !! "data-original-text"
               = None) by reflexivity.
  split; [exact H1 |]. split; [exact H2 |].
  exact (proj1 (setLoading_off_without_original
                  Example.without_container 0%nat _ H1 H2)).
Defined.

Lemma insert_child_head (a : node) (l : list node) :
  insert_child a (head l) l = a :: l.
Proof. destruct l as [|x l]; simpl; [reflexivity | now rewrite Nat.eqb_refl]. Qed.

Lemma detach_orphan (n : node) (e : element) (h : gmap node element) :
  h !! n = Some e -> parentNode e = None -> detach n h = h.
Proof. intros H Hp. unfold detach. now rewrite H, Hp. Qed.

(** What a successful [showAlert] does: one new element [a], placed in
    front of the children of the target [c], and one new timer. *)
Lemma showAlert_inserts (message type : string) (container : option node)
    (c : node) (ec : element) (w : world) :
  match container with
  | Some x => Some x
  | None => selector (Timer.data w) ".container"
  end = Some c ->
  els w !! c = Some ec ->
  els w !! next_node (Timer.data w) = None ->
  let d := Timer.data w in
  let a := next_node d in
  showAlert message type container w
  = (Ok tt,
     Timer.World (Timer.now w)
       (Timer.Queue (S (Timer.next_id (Timer.timers w)))
          (Timer.pending (Timer.timers w)
           ++ [Timer.Entry (Timer.next_id (Timer.timers w))
                           (Timer.now w + auto_dismiss_delay) (AutoDismiss a)]))
       (Page (<[a := banner message type c]>
                (<[c := set_childNodes (a :: childNodes ec) ec]> (elements d)))
             (S a) (selector d) (console d) (clipboard d) (remove_calls d))).
Proof.
  intros Htarget Hc Ha.
  destruct w as [n [nid pend] [h nn sel con clip rc]].
  unfold els in Hc, Ha. simpl in *.
  assert (Hne : c <> nn) by congruence.
  unfold showAlert, mbind, M_bind, mret, M_ret, createElement, update,
    querySelector, throw, put_els, els, Timer.set_data, set_elements.
  cbn [Timer.now Timer.timers Timer.data elements next_node selector console
       clipboard remove_calls].
  destruct container as [c0|]; simpl in Htarget;
    [injection Htarget as -> |];
    cbn [Timer.now Timer.timers Timer.data elements next_node selector console
         clipboard remove_calls];
    rewrite ?Htarget.
  all: unfold firstChild, insertBefore, setTimeout, Timer.setTimeout, els, put_els,
         Timer.set_data, Timer.set_timers, set_elements.
  all: cbn [Timer.now Timer.timers Timer.data elements next_node selector console
       clipboard remove_calls Timer.next_id Timer.pending].
  all: rewrite !lookup_alter_ne, lookup_insert_ne, Hc by congruence.
  all: cbn [Timer.now Timer.timers Timer.data elements next_node selector console
       clipboard remove_calls Timer.next_id Timer.pending].
  all: assert (Hh : alter (set_innerHTML (alert_html message)) nn
                      (alter (set_className (alert_class type)) nn
                         (<[nn:=empty_element]> h))
                    = <[nn := Element (alert_class type) (alert_html message)
                                     false ∅ None []]> h)
    by (rewrite (alter_lookup_insert (set_className (alert_class type)) nn empty_element)
          by apply lookup_insert_eq;
        rewrite insert_insert_eq;
        rewrite (alter_lookup_insert _ nn (set_className (alert_class type) empty_element))
          by apply lookup_insert_eq;
        now rewrite insert_insert_eq).
  all: rewrite Hh; clear Hh.
  all: rewrite lookup_insert_ne, Hc by congruence.
  all: assert (Hk : match head (childNodes ec) with
                    | Some r => bool_decide (r ∈ childNodes ec)
                    | None => true
                    end = true)
    by (destruct (childNodes ec) as [|x l]; [reflexivity |]; simpl;
        apply bool_decide_eq_true, list_elem_of_here).
  all: rewrite Hk; clear Hk.
  all: rewrite (detach_orphan nn
                  (Element (alert_class type) (alert_html message) false ∅ None []))
    by (first [apply lookup_insert_eq | reflexivity]).
  all: rewrite (alter_lookup_insert _ c ec)
    by (rewrite lookup_insert_ne by congruence; exact Hc).
  all: rewrite insert_child_head.
  all: rewrite (alter_lookup_insert _ nn
                  (Element (alert_class type) (alert_html message) false ∅ None []))
    by (rewrite lookup_insert_ne by congruence; apply lookup_insert_eq).
  all: cbn [Timer.now Timer.timers Timer.data Timer.next_id Timer.pending].
  all: rewrite (insert_insert_ne _ c nn) by congruence.
  all: rewrite insert_insert_eq.
  all: reflexivity.
Qed.

(** C10. Without a container argument and without an element matching
    [.container], [showAlert] throws a [TypeError] at the insertion:
    the element it created stays outside the tree, no other element is
    touched and no timer is set. *)
Theorem showAlert_without_container (message type : string) (w : world) :
  selector (Timer.data w) ".container" = None ->
  exists w' : world,
    showAlert message type None w
    = (Throw (TypeError "Cannot read properties of null (reading 'insertBefore')"), w') /\
    Timer.timers w' = Timer.timers w /\
    Timer.now w' = Timer.now w /\
    (forall n : node, n <> next_node (Timer.data w) -> els w' !! n = els w !! n) /\
    (exists ea : element,
       els w' !! next_node (Timer.data w) = Some ea /\
       parentNode ea = None /\ className ea = alert_class type) /\
    console (Timer.data w') = console (Timer.data w) /\
    remove_calls (Timer.data w') = remove_calls (Timer.data w).
Proof.
  intros Hsel.
  destruct w as [n [nid pend] [h nn sel con clip rc]]. simpl in *.
  unfold showAlert, mbind, M_bind, mret, M_ret, createElement, update,
    querySelector, throw, put_els, els, Timer.set_data, set_elements.
  cbn [Timer.now Timer.timers Timer.data elements next_node selector console
       clipboard remove_calls].
  rewrite Hsel. eexists. split; [reflexivity |].
  cbn [Timer.now Timer.timers Timer.data elements next_node selector console
       clipboard remove_calls].
  split; [reflexivity |]. split; [reflexivity |]. split.
  { intros m Hm. now rewrite !lookup_alter_ne, lookup_insert_ne by congruence. }
  split; [| split; reflexivity].
  eexists. split.
  { rewrite !lookup_alter_eq, lookup_insert_eq. reflexivity. }
  split; reflexivity.
Qed.






Lemma stored_idempotent (e : element) : stored (stored e) = stored e.
Proof.
  destruct e as [cn ih dis attr pn ch]. unfold stored, set_attributes. simpl.
  now rewrite insert_insert_eq.
Qed.

(** [storeOriginalText] records the content of every listed button and
    changes nothing else. *)
Lemma storeOriginalText_run (buttons : list node) :
  forall w : world,
    (forall b : node, b ∈ buttons -> is_Some (els w !! b)) ->
    exists h : gmap node element,
      storeOriginalText buttons w = (Ok tt, put_els h w) /\
      forall n : node,
        h !! n = if bool_decide (n ∈ buttons) then stored <$> els w !! n
                 else els w !! n.
Proof.
  induction buttons as [|b buttons IH]; intros w Hall.
  - exists (els w). split; [now destruct w as [n q []] |].
    intros n. rewrite bool_decide_eq_false_2; [reflexivity | apply not_elem_of_nil].
  - destruct (Hall b (list_elem_of_here _ _)) as [e He].
    unfold storeOriginalText. simpl forEach.
    unfold mbind at 1, M_bind at 1. unfold mbind at 1, M_bind at 1.
    unfold get_innerHTML at 1. rewrite He.
    unfold setAttribute at 1, update at 1.
    rewrite (alter_lookup_insert _ b e _ He).
    fold (stored e).
    set (w1 := put_els (<[b := stored e]> (els w)) w).
    destruct (IH w1) as (h & Hrun & Hh).
    { intros x Hx. unfold w1. rewrite els_put_els.
      destruct (decide (b = x)) as [-> | Hne].
      - rewrite lookup_insert_eq. eauto.
      - rewrite lookup_insert_ne by exact Hne.
        apply Hall. now apply list_elem_of_further. }
    exists h. split.
    + unfold storeOriginalText in Hrun. rewrite Hrun. reflexivity.
    + intros n. rewrite Hh. unfold w1. rewrite els_put_els.
      destruct (decide (n = b)) as [-> | Hne].
      * rewrite lookup_insert_eq, He.
        rewrite (bool_decide_eq_true_2 (b ∈ b :: buttons))
          by apply list_elem_of_here.
        simpl. rewrite stored_idempotent. now destruct (bool_decide (b ∈ buttons)).
      * rewrite lookup_insert_ne by congruence.
        destruct (bool_decide_reflect (n ∈ buttons)) as [Hin | Hnin].
        -- rewrite bool_decide_eq_true_2; [reflexivity |].
           now apply list_elem_of_further.
        -- rewrite bool_decide_eq_false_2; [reflexivity |].
           intros [? | ?]%elem_of_cons; contradiction.
Qed.

(** For a button whose content is not empty, storing the content and
    then switching the loading state on and off restores the content
    and enables the button. *)
Lemma setLoading_roundtrip_nonempty (buttons : list node) (b : node)
    (e : element) (w : world) :
  (forall x : node, x ∈ buttons -> is_Some (els w !! x)) ->
  b ∈ buttons ->
  els w !! b = Some e ->
  innerHTML e <> "" ->
  exists (w1 w2 w3 : world) (e3 : element),
    storeOriginalText buttons w = (Ok tt, w1) /\
    setLoading (inr b) true w1 = (Ok tt, w2) /\
    setLoading (inr b) false w2 = (Ok tt, w3) /\
    els w3 !! b = Some e3 /\
    innerHTML e3 = innerHTML e /\
    disabled e3 = false.
Proof.
  intros Hall Hin Hb Hne.
  destruct (storeOriginalText_run buttons w Hall) as (h & Hrun & Hh).
  assert (H1 : els (put_els h w) !! b = Some (stored e)).
  { rewrite els_put_els, Hh, bool_decide_eq_true_2 by exact Hin. now rewrite Hb. }
  eexists _, _, _, _. split; [exact Hrun |].
  split; [apply (setLoading_on _ b _ H1) |].
  split; [apply setLoading_off; rewrite els_put_els; apply lookup_insert_eq |].
  split; [rewrite els_put_els; apply lookup_insert_eq |].
  split; [| reflexivity].
  simpl. rewrite lookup_insert_eq. now apply or_else_nonempty.
Qed.

(** C5. A button with no content, as the close button of a banner:
    after [storeOriginalText] the stored text is the empty string,
    which [||] treats like a missing attribute, so that
    [setLoading(el, true); setLoading(el, false)] leaves the spinner in
    the button instead of the original, empty, content.  A button with
    content "Go" is restored. *)
Theorem setLoading_roundtrip_empty_content :
  let w := Example.two_buttons in
  let after (b : node) :=
    snd (setLoading (inr b) false
           (snd (setLoading (inr b) true
                   (snd (storeOriginalText [0; 1]%nat w))))) in
  innerHTML <$> (els (after 0%nat) !! 0%nat) = Some spinner_html /\
  disabled <$> (els (after 0%nat) !! 0%nat) = Some false /\
  spinner_html <> "" /\
  innerHTML <$> (els (after 1%nat) !! 1%nat) = Some "Go".
Proof.
  cbv zeta. split; [vm_compute; reflexivity |].
  split; [vm_compute; reflexivity |].
  split; [vm_compute; discriminate |].
  vm_compute; reflexivity.
Qed.

Lemma showAlert_without_container_witness :
  selector (Timer.data Example.without_container) ".container" = None /\
  exists w' : world,
    showAlert "Copied to clipboard!" "success" None Example.without_container
    = (Throw (TypeError "Cannot read properties of null (reading 'insertBefore')"), w').
Proof.
  assert (H : selector (Timer.data Example.without_container) ".container" = None)
    by reflexivity.
  split; [exact H |].
  destruct (showAlert_without_container "Copied to clipboard!" "success"
              Example.without_container H) as (w' & Hrun & _).
  exists w'. exact Hrun.
Defined.


End PageFacts.

(** ** Facts about showAlert and its timer *)

Section AlertFacts.

Import Page.

Lemma elem_of_prune (b x : node) (l : list node) :
  x ∈ prune b l <-> x ∈ l /\ x <> b.
Proof.
  unfold prune. rewrite list_elem_of_In, filter_In, <- list_elem_of_In.
  now rewrite negb_true_iff, Nat.eqb_neq.
Qed.

Lemma prune_cons_ne (b a : node) (l : list node) :
  a <> b -> prune b (a :: l) = a :: prune b l.
Proof.
  intros Hne. unfold prune. simpl.
  destruct (Nat.eqb_spec a b); [contradiction | reflexivity].
Qed.

(** What [detach] does to each element: the parent link changes only
    for the detached node, and a child list is kept or pruned. *)
Lemma detach_lookup (h : gmap node element) (b n : node) :
  exists f : element -> element,
    detach b h !! n = f <$> (h !! n) /\
    forall e : element,
      (childNodes (f e) = childNodes e \/ childNodes (f e) = prune b (childNodes e)) /\
      (n <> b -> parentNode (f e) = parentNode e).
Proof.
  unfold detach.
  destruct (h !! b) as [eb|] eqn:Hb;
    [destruct (parentNode eb) as [p|] eqn:Hp |];
    try (exists id; split; [now rewrite option_fmap_id | intros e; auto]).
  exists (fun e =>
            (if decide (b = n) then set_parentNode None else id)
              ((if decide (p = n) then
                  fun ep => set_childNodes (prune b (childNodes ep)) ep
                else id) e)).
  split.
  - rewrite !lookup_alter.
    destruct (decide (b = n)) as [-> | ?], (decide (p = n)) as [-> | ?];
      rewrite ?lookup_alter_eq, ?lookup_alter_ne by congruence;
      destruct (h !! n); reflexivity.
  - intros e. destruct (decide (b = n)) as [-> | ?], (decide (p = n)) as [-> | ?];
      simpl; split; auto; congruence.
Qed.

Lemma detach_self (h : gmap node element) (b p : node) (eb : element) :
  h !! b = Some eb -> parentNode eb = Some p ->
  exists eb' : element, detach b h !! b = Some eb' /\ parentNode eb' = None.
Proof.
  intros Hb Hp. unfold detach. rewrite Hb, Hp. rewrite lookup_alter_eq.
  destruct (decide (p = b)) as [-> | Hne].
  - rewrite lookup_alter_eq, Hb. simpl. eauto.
  - rewrite lookup_alter_ne, Hb by exact Hne. simpl. eauto.
Qed.

Lemma detach_parent (h : gmap node element) (b p : node) (eb e' : element) :
  h !! b = Some eb -> parentNode eb = Some p ->
  detach b h !! p = Some e' -> b ∉ childNodes e'.
Proof.
  intros Hb Hp. unfold detach. rewrite Hb, Hp.
  destruct (decide (p = b)) as [-> | Hne].
  - rewrite !lookup_alter_eq, Hb. simpl. intros [= <-]. simpl.
    rewrite elem_of_prune. tauto.
  - rewrite lookup_alter_ne, lookup_alter_eq by congruence.
    destruct (h !! p) as [ep|]; simpl; [| discriminate].
    intros [= <-]. simpl. rewrite elem_of_prune. tauto.
Qed.

(** The timer callback on an element that is in the heap. *)
Lemma handler_run (b : node) (eb : element) (w : world) :
  els w !! b = Some eb ->
  handler (AutoDismiss b) w
  = match parentNode eb with
    | Some _ =>
        let d := Timer.data w in
        Timer.set_data
          (Page (detach b (elements d)) (next_node d) (selector d)
                (console d) (clipboard d) (remove_calls d ++ [b])) w
    | None => w
    end.
Proof.
  intros Hb. unfold handler, run_closure, auto_dismiss, mbind, M_bind,
    get_parentNode. rewrite Hb. now destruct (parentNode eb).
Qed.


Lemma handler_timers (c : closure) (w : world) :
  Timer.timers (handler c w) = Timer.timers w.
Proof.
  destruct c as [b]. unfold handler, run_closure, auto_dismiss, mbind, M_bind,
    get_parentNode.
  destruct (els w !! b) as [eb|]; [destruct (parentNode eb) |]; reflexivity.
Qed.

(** The effect of the callback for [b] on the rest of the page. *)
Lemma handler_effect (b : node) (eb : element) (w : world) :
  els w !! b = Some eb ->
  let w' := handler (AutoDismiss b) w in
  Timer.timers w' = Timer.timers w /\
  console (Timer.data w') = console (Timer.data w) /\
  (forall n : node,
     exists f : element -> element,
       els w' !! n = f <$> (els w !! n) /\
       forall e : element,
         (childNodes (f e) = childNodes e \/
          childNodes (f e) = prune b (childNodes e)) /\
         (n <> b -> parentNode (f e) = parentNode e)) /\
  ((parentNode eb = None /\ w' = w) \/
   (exists p : node,
      parentNode eb = Some p /\
      remove_calls (Timer.data w') = remove_calls (Timer.data w) ++ [b] /\
      (exists eb' : element, els w' !! b = Some eb' /\ parentNode eb' = None) /\
      (forall e' : element, els w' !! p = Some e' -> b ∉ childNodes e'))).
Proof.
  intros Hb. cbv zeta. rewrite (handler_run b eb w Hb).
  destruct (parentNode eb) as [p|] eqn:Hp.
  - split; [reflexivity |]. split; [reflexivity |]. split.
    + intros n. apply detach_lookup.
    + right. exists p. split; [reflexivity |]. split; [reflexivity |].
      split; [apply (detach_self _ b p eb Hb Hp) |].
      intros e'. apply (detach_parent _ b p eb e' Hb Hp).
  - split; [reflexivity |]. split; [reflexivity |]. split.
    + intros n. exists id. split; [now rewrite option_fmap_id | auto].
    + left. split; reflexivity.
Qed.










(** *** The page stays well formed *)

Lemma handler_next_node (c : closure) (w : world) :
  next_node (Timer.data (handler c w)) = next_node (Timer.data w).
Proof.
  destruct c as [b]. unfold handler, run_closure, auto_dismiss, mbind, M_bind,
    get_parentNode.
  destruct (els w !! b) as [eb|]; [destruct (parentNode eb) |]; reflexivity.
Qed.

Lemma handler_wf (b : node) (w : world) :
  wf w -> (b < next_node (Timer.data w))%nat -> wf (handler (AutoDismiss b) w).
Proof.
  intros (Hdom & Hkids & Hpend & Hrc) Hb.
  destruct (els w !! b) as [eb|] eqn:Eb; [| apply Hdom in Eb; lia].
  destruct (handler_effect b eb w Eb) as (Ht & _ & Hf & Hcase).
  pose proof (handler_next_node (AutoDismiss b) w) as Hnn.
  set (w' := handler (AutoDismiss b) w) in *.
  unfold wf. rewrite Hnn, Ht. split; [| split; [| split]].
  - intros n. destruct (Hf n) as (f & En & _). rewrite En, <- Hdom.
    now destruct (els w !! n).
  - intros n e Hn. destruct (Hf n) as (f & En & Pn). rewrite Hn in En.
    destruct (els w !! n) as [e0|] eqn:E0; [| discriminate].
    injection En as ->. specialize (Hkids n e0 E0).
    destruct (Pn e0) as [[-> | ->] _]; [exact Hkids |].
    rewrite Forall_forall in *. intros x [Hx _]%elem_of_prune. auto.
  - exact Hpend.
  - destruct Hcase as [[_ ->] | (p & _ & -> & _)]; [exact Hrc |].
    apply Forall_app. split; [exact Hrc |]. now repeat constructor.
Qed.

Lemma advance_wf (w : world) (T : nat) : wf w -> wf (Timer.advance handler T w).
Proof.
  intros Hw. unfold Timer.advance.
  set (w' := Timer.fire handler _ T w).
  assert (H' : wf w').
  { apply fire_invariant; [| exact Hw].
    intros w0 e q (Hdom & Hkids & Hpend & Hrc) Htd.
    destruct (take_due_Some _ _ _ _ Htd) as (He & _ & -> & _).
    destruct e as [i d [b]]. simpl.
    apply handler_wf; [| now apply (Hpend _ He)].
    split; [exact Hdom |]. split; [exact Hkids |]. split; [| exact Hrc].
    intros e2 [He2 _]%pending_clearTimeout. now apply Hpend. }
  destruct w' as [n q d]. exact H'.
Qed.

Lemma showAlert_wf (message type : string) (container : option node)
    (c : node) (ec : element) (w : world) :
  wf w ->
  match container with
  | Some x => Some x
  | None => selector (Timer.data w) ".container"
  end = Some c ->
  els w !! c = Some ec ->
  wf (snd (showAlert message type container w)).
Proof.
  intros (Hdom & Hkids & Hpend & Hrc) Htarget Hc.
  set (a := next_node (Timer.data w)) in *.
  assert (Ha : els w !! a = None) by (apply Hdom; lia).
  assert (Hca : (c < a)%nat).
  { destruct (Nat.lt_ge_cases c a) as [|Hge]; [assumption |].
    apply Hdom in Hge. congruence. }
  rewrite (showAlert_inserts message type container c ec w Htarget Hc Ha).
  unfold wf, els. simpl. fold a. split; [| split; [| split]].
  - intros n. destruct (decide (n = a)) as [-> | Hna].
    + rewrite lookup_insert_eq. split; [discriminate | lia].
    + rewrite lookup_insert_ne by congruence.
      destruct (decide (n = c)) as [-> | Hnc].
      * rewrite lookup_insert_eq. split; [discriminate | lia].
      * rewrite lookup_insert_ne by congruence.
        fold (els w). rewrite Hdom. fold a. lia.
  - intros n e. destruct (decide (n = a)) as [-> | Hna].
    + rewrite lookup_insert_eq. intros [= <-]. constructor.
    + rewrite lookup_insert_ne by congruence.
      destruct (decide (n = c)) as [-> | Hnc].
      * rewrite lookup_insert_eq. intros [= <-]. simpl.
        constructor; [lia |]. specialize (Hkids c ec Hc).
        eapply Forall_impl; [exact Hkids |]. simpl. intros x Hx. fold a in Hx. lia.
      * rewrite lookup_insert_ne by congruence. intros Hn.
        specialize (Hkids n e Hn).
        eapply Forall_impl; [exact Hkids |]. simpl. intros x Hx. fold a in Hx. lia.
  - intros e [He | He]%elem_of_app.
    + destruct (Hpend e He) as [H1 H2]. fold a in H2. split; lia.
    + apply list_elem_of_singleton in He as ->. simpl. split; lia.
  - eapply Forall_impl; [exact Hrc |]. simpl. intros x Hx. fold a in Hx. lia.
Qed.





End AlertFacts.

(** ** More about formatFileSize *)

Section FormatMore.

Import Format.

Lemma toFixed_hundredths_whole (m den : Z) :
  0 <= m -> 0 < den -> toFixed_hundredths (m * den) den = Z.to_N (100 * m).
Proof.
  intros Hm Hd. unfold toFixed_hundredths. f_equal.
  symmetry. apply Z.div_unique with (r := den); [lia | nia].
Qed.

Lemma normalize_whole (m : N) : normalize (100 * m) 2 = Decimal m 0.
Proof.
  simpl.
  assert (H1 : ((100 * m) mod 10 = 0)%N).
  { replace (100 * m)%N with (10 * m * 10)%N by lia. apply N.Div0.mod_mul. }
  assert (H2 : ((100 * m) / 10 = 10 * m)%N).
  { replace (100 * m)%N with (10 * m * 10)%N by lia. apply N.div_mul. lia. }
  assert (H3 : ((10 * m) mod 10 = 0)%N).
  { rewrite N.mul_comm. apply N.Div0.mod_mul. }
  assert (H4 : ((10 * m) / 10 = m)%N).
  { rewrite N.mul_comm. apply N.div_mul. lia. }
  rewrite H1. simpl. rewrite H2, H3. simpl. now rewrite H4.
Qed.

(** X1. The unit follows the magnitude: a size from [1024^i] up to, but
    not including, [1024^(i+1)] is written with the entry [sizes[i]],
    for each of the five entries (Bytes below 1024, KB below 1024^2,
    and so on up to TB), for sizes up to [1024^5 - 1024]: the last
    integers below [1024^5], where the rounded quotient of the
    logarithms reaches 5, are left out. *)
Theorem formatFileSize_unit_by_range (b : Z) (i : nat) (u : string) :
  sizes !! i = Some u ->
  pow_k i <= b < pow_k (S i) ->
  b <= pow_k 5 - 1024 ->
  formatFileSize b = number_toString (size_number b) +:+ " " +:+ u /\
  Str.ends_with (formatFileSize b) u = true.
Proof.
  intros Hu Hb _. pose proof (pow_k_pos i) as HD.
  assert (Hi : log_index b = i) by now apply log_index_unique.
  assert (Hf : formatFileSize b = number_toString (size_number b) +:+ " " +:+ u).
  { unfold formatFileSize. destruct (Z.eqb_spec b 0) as [H0 | _]; [lia |].
    cbv zeta. rewrite Hi. unfold unit_string. now rewrite Hu. }
  split; [exact Hf |].
  rewrite Hf, <- append_assoc. apply ends_with_append.
Qed.

Lemma formatFileSize_unit_by_range_witness :
  sizes !! 2%nat = Some "MB" /\
  pow_k 2 <= 5 * 1024 * 1024 < pow_k 3 /\
  5 * 1024 * 1024 <= pow_k 5 - 1024 /\
  Str.ends_with (formatFileSize (5 * 1024 * 1024)) "MB" = true.
Proof.
  assert (H1 : sizes !! 2%nat = Some "MB") by reflexivity.
  assert (H2 : pow_k 2 <= 5 * 1024 * 1024 < pow_k 3) by (split; [apply Z.leb_le | apply Z.ltb_lt]; vm_compute; reflexivity).
  assert (H3 : 5 * 1024 * 1024 <= pow_k 5 - 1024)
    by (apply Z.leb_le; vm_compute; reflexivity).
  split; [exact H1 |]. split; [exact H2 |]. split; [exact H3 |].
  exact (proj2 (formatFileSize_unit_by_range (5 * 1024 * 1024) 2 "MB" H1 H2 H3)).
Defined.

(** X2. A whole number of units is written without decimals: for
    [1 <= m < 1024], [m * 1024^i] bytes are written as [m], a space and
    the entry [sizes[i]]. *)
Theorem formatFileSize_whole_units (m : Z) (i : nat) :
  1 <= m < 1024 ->
  formatFileSize (m * pow_k i) = string_of_N (Z.to_N m) +:+ " " +:+ unit_string i.
Proof.
  intros Hm. pose proof (pow_k_pos i) as HD.
  assert (Hi : log_index (m * pow_k i) = i).
  { apply log_index_unique. split; [nia |].
    unfold pow_k, k. rewrite Nat2Z.inj_succ, Z.pow_succ_r by lia.
    fold k. fold (pow_k i). unfold k. nia. }
  unfold formatFileSize. destruct (Z.eqb_spec (m * pow_k i) 0) as [H0 | _]; [nia |].
  cbv zeta. unfold size_number. rewrite Hi, parseFloat_toFixed2.
  rewrite toFixed_hundredths_whole by lia.
  replace (Z.to_N (100 * m)) with (100 * Z.to_N m)%N by lia.
  unfold number_toString. cbn [mant scale]. rewrite normalize_whole. reflexivity.
Qed.

Lemma formatFileSize_whole_units_witness :
  1 <= 512 < 1024 /\ formatFileSize (512 * pow_k 3) = "512 GB".
Proof.
  split; [lia |]. exact (formatFileSize_whole_units 512 3 ltac:(lia)).
Defined.

(** X3. For a positive size up to [1024^5 - 1024], the number shown is
    never below 1 and never above 1024: the hundredths that
    [toFixed(2)] yields lie between 100 and 102400.  The upper end is
    reached just below a power of 1024, where the value is rounded up
    to 1024 of the smaller unit. *)
Theorem formatFileSize_number_range (b : Z) :
  0 < b ->
  b <= pow_k 5 - 1024 ->
  let n := toFixed_hundredths b (pow_k (log_index b)) in
  size_number b = Some (Decimal n 2) /\
  (100 <= n <= 102400)%N /\
  (pow_k (S (log_index b)) - b <= pow_k (log_index b) / 200 ->
   number_toString (size_number b) = "1024").
Proof.
  intros Hb _. cbv zeta.
  pose proof (log_index_spec b Hb) as [Hlo Hhi].
  pose proof (pow_k_pos (log_index b)) as HD.
  assert (HS : pow_k (S (log_index b)) = 1024 * pow_k (log_index b)).
  { unfold pow_k, k. rewrite Nat2Z.inj_succ, Z.pow_succ_r by lia. reflexivity. }
  set (D := pow_k (log_index b)) in *.
  split; [apply parseFloat_toFixed2 |].
  unfold toFixed_hundredths.
  assert (H1 : 100 <= (200 * b + D) / (2 * D)).
  { apply Z.div_le_lower_bound; lia. }
  assert (H2 : (200 * b + D) / (2 * D) <= 102400).
  { apply Z.lt_succ_r. apply Z.div_lt_upper_bound; lia. }
  split; [lia |].
  intros Hnear.
  assert (H3 : 102400 <= (200 * b + D) / (2 * D)).
  { apply Z.div_le_lower_bound; [lia |].
    pose proof (Z.mul_div_le D 200 ltac:(lia)). lia. }
  unfold size_number. fold D. rewrite parseFloat_toFixed2.
  unfold toFixed_hundredths.
  replace ((200 * b + D) / (2 * D)) with 102400 by lia.
  vm_compute. reflexivity.
Qed.

Lemma formatFileSize_number_range_witness :
  0 < 1048575 /\ 1048575 <= pow_k 5 - 1024 /\ formatFileSize 1048575 = "1024 KB".
Proof.
  assert (Hle : 1048575 <= pow_k 5 - 1024) by (apply Z.leb_le; vm_compute; reflexivity).
  split; [lia |]. split; [exact Hle |].
  destruct (formatFileSize_number_range 1048575 ltac:(lia) Hle) as (_ & _ & H).
  unfold formatFileSize. simpl Z.eqb. cbv iota zeta.
  rewrite H; [reflexivity | vm_compute; discriminate].
Defined.

End FormatMore.

(** ** Facts about what debounce and throttle let through *)

Section DeliveryFacts.

Context {Args : Type}.
Variable delay : nat.

Import Delivery.

Lemma waiting_call_early (w : Debounce.world Args) (t t' : nat) (a a' : Args)
    (done : list (nat * Args)) :
  waiting delay w t a done -> (t <= t' < t + delay)%nat ->
  waiting delay (Debounce.call_at delay w (t', a')) t' a' done.
Proof.
  intros (h & Hnow & Hc & Hp & Hto) Ht.
  destruct w as [n [nid pend] [to cs]]; simpl in *; subst.
  unfold Debounce.call_at, Timer.advance; simpl. unfold Timer.take_due; simpl.
  destruct (Nat.leb_spec (t + delay) t'); [lia |]. simpl.
  unfold Debounce.executedFunction; simpl. rewrite Nat.eqb_refl. simpl.
  exists nid. replace (Nat.max t t') with t' by lia. repeat split; reflexivity.
Qed.

Lemma waiting_call_late (w : Debounce.world Args) (t t' : nat) (a a' : Args)
    (done : list (nat * Args)) :
  waiting delay w t a done -> (t + delay <= t')%nat ->
  waiting delay (Debounce.call_at delay w (t', a')) t' a'
          (done ++ [((t + delay)%nat, a)]).
Proof.
  intros (h & Hnow & Hc & Hp & Hto) Ht.
  destruct w as [n [nid pend] [to cs]]; simpl in *; subst.
  unfold Debounce.call_at, Timer.advance; simpl. unfold Timer.take_due; simpl.
  destruct (Nat.leb_spec (t + delay) t'); [| lia]. simpl.
  rewrite Nat.eqb_refl. simpl.
  unfold Debounce.executedFunction; simpl.
  exists nid. replace (Nat.max (Nat.max t (t + delay)) t') with t' by lia.
  repeat split; try reflexivity.
  unfold Debounce.func. simpl. do 3 f_equal. lia.
Qed.

Lemma waiting_run (rest : list (nat * Args)) :
  forall (w : Debounce.world Args) (t : nat) (a : Args)
         (done : list (nat * Args)) (T : nat),
    waiting delay w t a done ->
    ascending t (map fst rest) ->
    (fst (List.last rest (t, a)) + delay <= T)%nat ->
    Debounce.calls
      (Timer.data (Timer.advance Debounce.handler T (Debounce.run delay rest w)))
    = done ++ debounced delay t a rest.
Proof.
  induction rest as [|[t' a'] rest IH]; intros w t a done T Hw Hasc HT.
  - simpl in *. destruct Hw as (h & Hnow & Hc & Hp & Hto).
    destruct w as [n [nid pend] [to cs]]; simpl in *; subst.
    unfold Timer.advance; simpl. unfold Timer.take_due; simpl.
    destruct (Nat.leb_spec (t + delay) T); [| lia]. simpl.
    do 3 f_equal. lia.
  - destruct Hasc as [Htt Hasc].
    assert (HT' : (fst (List.last rest (t', a')) + delay <= T)%nat).
    { clear - HT. destruct rest as [|c rest]; [exact HT |].
      simpl in *. revert c HT. induction rest as [|c' rest IH]; intros c HT;
        [exact HT |]. simpl in *. now apply IH. }
    simpl Debounce.run. simpl debounced.
    destruct (Nat.ltb_spec t' (t + delay)) as [Hlt | Hge].
    + apply IH; [| exact Hasc | exact HT'].
      now apply (waiting_call_early w t t' a a').
    + rewrite (IH _ t' a' (done ++ [((t + delay)%nat, a)]) T);
        [now rewrite <- app_assoc | | exact Hasc | exact HT'].
      now apply waiting_call_late.
Qed.

Lemma debounced_from_calls (rest : list (nat * Args)) :
  forall (t : nat) (a : Args),
    Forall (fun d => exists c, c ∈ (t, a) :: rest /\
                               d = ((fst c + delay)%nat, snd c))
           (debounced delay t a rest) /\
    (length (debounced delay t a rest) <= S (length rest))%nat.
Proof.
  induction rest as [|[t' a'] rest IH]; intros t a; simpl.
  - split; [| lia]. constructor; [| constructor].
    exists (t, a). split; [apply list_elem_of_here | reflexivity].
  - destruct (IH t' a') as [H1 H2].
    assert (H1' : Forall (fun d => exists c, c ∈ (t, a) :: (t', a') :: rest /\
                                             d = ((fst c + delay)%nat, snd c))
                         (debounced delay t' a' rest)).
    { eapply Forall_impl; [exact H1 |]. intros d (c & Hc & ->).
      exists c. split; [now apply list_elem_of_further | reflexivity]. }
    destruct (t' <? t + delay)%nat.
    + split; [exact H1' | lia].
    + split; [| simpl; lia]. constructor; [| exact H1'].
      exists (t, a). split; [apply list_elem_of_here | reflexivity].
Qed.

(** X4. For calls in the order of time, none of them made at the very
    time at which the timer of the call before it is due, the debounced
    wrapper delivers exactly the calls that are not followed by another
    call within [wait], each [wait] after it was made and with its own
    arguments: [func] is never invoked more often than the wrapper was
    called and never with arguments that were not passed. *)
Theorem debounce_deliveries (t0 : nat) (a0 : Args) (rest : list (nat * Args))
    (T : nat) :
  ascending t0 (map fst rest) ->
  clear_of_due delay t0 (map fst rest) ->
  (fst (List.last rest (t0, a0)) + delay <= T)%nat ->
  let log := Debounce.calls
               (Timer.data
                  (Timer.advance Debounce.handler T
                     (Debounce.run delay ((t0, a0) :: rest) Debounce.initial))) in
  log = debounced delay t0 a0 rest /\
  Forall (fun d => exists c, c ∈ (t0, a0) :: rest /\
                             d = ((fst c + delay)%nat, snd c)) log /\
  (length log <= length ((t0, a0) :: rest))%nat.
Proof.
  intros Hasc _ HT. cbv zeta.
  assert (Hlog : Debounce.calls
            (Timer.data
               (Timer.advance Debounce.handler T
                  (Debounce.run delay ((t0, a0) :: rest) Debounce.initial)))
          = debounced delay t0 a0 rest).
  { change (Debounce.run delay ((t0, a0) :: rest) Debounce.initial)
      with (Debounce.run delay rest
              (Debounce.call_at delay Debounce.initial (t0, a0))).
    rewrite (waiting_run rest _ t0 a0 [] T); [reflexivity | | exact Hasc | exact HT].
    exists 1%nat. repeat split; reflexivity. }
  rewrite Hlog. destruct (debounced_from_calls rest t0 a0) as [H1 H2].
  split; [reflexivity |]. split; [exact H1 | simpl; lia].
Qed.

End DeliveryFacts.

Lemma debounce_deliveries_witness :
  Delivery.ascending 0 (map fst [(100, "b"); (500, "c"); (2000, "d")]%nat) /\
  Delivery.clear_of_due 300 0 (map fst [(100, "b"); (500, "c"); (2000, "d")]%nat) /\
  Debounce.calls
    (Timer.data
       (Timer.advance Debounce.handler 3000
          (Debounce.run 300 [(0, "a"); (100, "b"); (500, "c"); (2000, "d")]%nat
             Debounce.initial)))
  = [(400, "b"); (800, "c"); (2300, "d")]%nat.
Proof.
  assert (H : Delivery.ascending 0 (map fst [(100, "b"); (500, "c"); (2000, "d")]%nat))
    by (simpl; lia).
  assert (H' : Delivery.clear_of_due 300 0
                 (map fst [(100, "b"); (500, "c"); (2000, "d")]%nat))
    by (simpl; lia).
  split; [exact H |]. split; [exact H' |].
  exact (proj1 (debounce_deliveries 300 0%nat "a"
                  [(100, "b"); (500, "c"); (2000, "d")]%nat 3000 H H'
                  ltac:(simpl; lia))).
Defined.

Section ThrottleDelivery.

Context {Args : Type}.
Variable limit : nat.
Variable throws : Args -> bool.

Import Delivery.

(** One call, from a tracked state. *)
Lemma call_at_tracks (w : Throttle.world Args) (free : option nat)
    (log : list (nat * Args)) (t : nat) (a : Args) :
  tracks w free log -> (Timer.now w <= t)%nat ->
  tracks (Throttle.call_at limit throws w (t, a))
         (blackout_after limit throws free t a)
         (log ++ if released free t then [(t, a)] else []) /\
  Timer.now (Throttle.call_at limit throws w (t, a)) = t.
Proof.
  intros Hw Hnow. unfold blackout_after.
  destruct free as [f|]; simpl in *.
  - destruct (Nat.leb_spec f t) as [Hle | Hlt].
    + destruct (call_at_released limit throws w f t log a Hw Hle) as [Hn H].
      split; [| exact Hn]. now destruct (throws a).
    + destruct (call_at_throttled limit throws w f log (t, a) Hw Hlt) as [H Hn].
      rewrite app_nil_r. split; [exact H |]. rewrite Hn. simpl. lia.
  - destruct (call_at_idle limit throws w t log a Hw Hnow) as [Hn H].
    split; [| exact Hn]. now destruct (throws a).
Qed.

Lemma run_tracks (cs : list (nat * Args)) :
  forall (w : Throttle.world Args) (free : option nat) (log : list (nat * Args)),
    tracks w free log ->
    ascending (Timer.now w) (map fst cs) ->
    Throttle.calls (Timer.data (Throttle.run limit throws cs w))
    = log ++ passed limit throws free cs.
Proof.
  induction cs as [|[t a] cs IH]; intros w free log Hw Hasc.
  - simpl. rewrite app_nil_r.
    destruct free; [now destruct Hw as (h & _ & _ & Hc & _) | now destruct Hw as (_ & Hc & _)].
  - destruct Hasc as [Ht Hasc]. simpl Throttle.run.
    destruct (call_at_tracks w free log t a Hw Ht) as [H Hn].
    rewrite (IH _ _ _ H) by (rewrite Hn; exact Hasc).
    simpl passed. destruct (released free t); [now rewrite <- app_assoc |].
    now rewrite app_nil_r.
Qed.

Lemma throttle_run_initial (cs : list (nat * Args)) :
  ascending 0 (map fst cs) ->
  Throttle.calls (Timer.data (Throttle.run limit throws cs Throttle.initial))
  = passed limit throws None cs.
Proof.
  intros Hasc.
  now rewrite (run_tracks cs Throttle.initial None [] (initial_idle) Hasc).
Qed.

(** The timer of the throttle wrapper only resets the flag. *)
Lemma throttle_advance_calls (w : Throttle.world Args) (T : nat) :
  Throttle.calls (Timer.data (Timer.advance Throttle.handler T w))
  = Throttle.calls (Timer.data w).
Proof.
  unfold Timer.advance. simpl.
  apply (fire_invariant Throttle.handler
           (fun x => Throttle.calls (Timer.data x) = Throttle.calls (Timer.data w)));
    [| reflexivity].
  intros w0 e q H0 _. destruct (Timer.callback e). exact H0.
Qed.

(** When [func] never throws, what passes is spaced out. *)
Lemma passed_spaced (cs : list (nat * Args)) :
  (forall c : nat * Args, c ∈ cs -> throws (snd c) = false) ->
  forall free : option nat,
    spaced limit (passed limit throws free cs) /\
    (forall x, head (passed limit throws free cs) = Some x ->
               released free (fst x) = true).
Proof.
  induction cs as [|[t a] cs IH]; intros Hret free; simpl.
  - split; [exact I | discriminate].
  - assert (Ha : throws a = false) by apply (Hret (t, a)), list_elem_of_here.
    assert (Hret' : forall c : nat * Args, c ∈ cs -> throws (snd c) = false).
    { intros c Hc. now apply Hret, list_elem_of_further. }
    unfold blackout_after. destruct (released free t) eqn:E.
    + rewrite Ha. destruct (IH Hret' (Some (t + limit)%nat)) as [Hs Hh]. split.
      * simpl. split; [| exact Hs].
        destruct (passed limit throws (Some (t + limit)%nat) cs) as [|y r] eqn:E';
          [exact I |].
        specialize (Hh y eq_refl). simpl in Hh. now apply Nat.leb_le in Hh.
      * intros x [= <-]. exact E.
    + apply IH. exact Hret'.
Qed.

(** When [func] always throws, every call passes. *)
Lemma passed_all_throw (cs : list (nat * Args)) :
  (forall c : nat * Args, c ∈ cs -> throws (snd c) = true) ->
  passed limit throws None cs = cs.
Proof.
  induction cs as [|[t a] cs IH]; intros Hthr; [reflexivity |].
  pose proof (Hthr (t, a) (list_elem_of_here _ _)) as E. simpl in E.
  simpl. unfold blackout_after. simpl. rewrite E.
  f_equal. apply IH. intros c Hc. now apply Hthr, list_elem_of_further.
Qed.

Lemma passed_sublist (cs : list (nat * Args)) :
  forall free : option nat, passed limit throws free cs `sublist_of` cs.
Proof.
  induction cs as [|[t a] cs IH]; intros free; simpl; [constructor |].
  destruct (released free t); now constructor.
Qed.

(** X5. For calls in the order of time, none of them made at the very
    end of a blackout: the throttled wrapper invokes [func] at once for
    the first call and for every call made when no blackout is on, and
    for no other.  An invocation that returns starts a blackout of
    [limit]; one that throws starts none.  A call that is dropped is
    not delivered later either, whatever time passes. *)
Theorem throttle_passes (cs : list (nat * Args)) (T : nat) :
  ascending 0 (map fst cs) ->
  untied limit throws None cs ->
  let w := Throttle.run limit throws cs Throttle.initial in
  Throttle.calls (Timer.data w) = passed limit throws None cs /\
  Throttle.calls (Timer.data (Timer.advance Throttle.handler T w))
  = passed limit throws None cs /\
  passed limit throws None cs `sublist_of` cs.
Proof.
  intros Hasc _. cbv zeta. split; [now apply throttle_run_initial |].
  split; [| apply passed_sublist].
  rewrite throttle_advance_calls. now apply throttle_run_initial.
Qed.

(** X6. For calls in the order of time: when [func] returns normally on
    each of them, two invocations of [func] through the throttled
    wrapper are never less than [limit] apart.  The condition is
    needed: [func] is applied before the flag is set, so when it throws
    on every call, every call invokes it, however close the calls. *)
Theorem throttle_rate_limit (cs : list (nat * Args)) :
  ascending 0 (map fst cs) ->
  let log := Throttle.calls
               (Timer.data (Throttle.run limit throws cs Throttle.initial)) in
  ((forall c : nat * Args, c ∈ cs -> throws (snd c) = false) ->
   spaced limit log) /\
  ((forall c : nat * Args, c ∈ cs -> throws (snd c) = true) -> log = cs).
Proof.
  intros Hasc. cbv zeta. rewrite (throttle_run_initial cs Hasc). split.
  - intros Hret. now apply passed_spaced.
  - apply passed_all_throw.
Qed.

End ThrottleDelivery.

Lemma throttle_passes_witness :
  Delivery.ascending 0 (map fst [(0, "a"); (100, "b"); (301, "boom"); (350, "c");
                                 (400, "d"); (651, "e")]%nat) /\
  Delivery.untied 300 (String.eqb "boom") None
    [(0, "a"); (100, "b"); (301, "boom"); (350, "c"); (400, "d"); (651, "e")]%nat /\
  Throttle.calls
    (Timer.data
       (Throttle.run 300 (String.eqb "boom")
          [(0, "a"); (100, "b"); (301, "boom"); (350, "c"); (400, "d"); (651, "e")]%nat
          Throttle.initial))
  = [(0, "a"); (301, "boom"); (350, "c"); (651, "e")]%nat.
Proof.
  assert (H1 : Delivery.ascending 0
                 (map fst [(0, "a"); (100, "b"); (301, "boom"); (350, "c");
                           (400, "d"); (651, "e")]%nat))
    by (simpl; lia).
  assert (H2 : Delivery.untied 300 (String.eqb "boom") None
                 [(0, "a"); (100, "b"); (301, "boom"); (350, "c"); (400, "d");
                  (651, "e")]%nat)
    by (vm_compute; repeat split; discriminate).
  split; [exact H1 |]. split; [exact H2 |].
  exact (proj1 (throttle_passes 300 (String.eqb "boom") _ 0%nat H1 H2)).
Defined.

Lemma throttle_rate_limit_witness :
  Delivery.ascending 0 (map fst [(0, "a"); (100, "b"); (301, "c"); (450, "d")]%nat) /\
  (forall c : nat * string,
     c ∈ [(0, "a"); (100, "b"); (301, "c"); (450, "d")]%nat -> false = false) /\
  Delivery.spaced 300
    (Throttle.calls
       (Timer.data
          (Throttle.run 300 (fun _ => false)
             [(0, "a"); (100, "b"); (301, "c"); (450, "d")]%nat Throttle.initial))).
Proof.
  assert (H1 : Delivery.ascending 0
                 (map fst [(0, "a"); (100, "b"); (301, "c"); (450, "d")]%nat))
    by (simpl; lia).
  assert (H2 : forall c : nat * string,
             c ∈ [(0, "a"); (100, "b"); (301, "c"); (450, "d")]%nat -> false = false)
    by reflexivity.
  split; [exact H1 |]. split; [exact H2 |].
  exact (proj1 (throttle_rate_limit 300 (fun _ => false) _ H1) H2).
Defined.

(** ** More about setLoading and storeOriginalText *)

Section LoadingMore.

Import Page Scenario.

(** X7. Given a selector, [setLoading] acts on the first matching
    element; when nothing matches it throws a [TypeError] and leaves
    the page as it is. *)
Theorem setLoading_selector (sel : string) (loading : bool) (w : world) :
  (selector (Timer.data w) sel = None ->
   setLoading (inl sel) loading w
   = (Throw (TypeError "Cannot set properties of null (setting 'disabled')"), w)) /\
  (forall b : node,
     selector (Timer.data w) sel = Some b ->
     setLoading (inl sel) loading w = setLoading (inr b) loading w).
Proof.
  split.
  - intros H. unfold setLoading, mbind, M_bind, querySelector. now rewrite H.
  - intros b H. unfold setLoading, mbind, M_bind, querySelector. now rewrite H.
Qed.

Lemma loading_cycle_stored (b : node) (e : element) (w : world) :
  els w !! b = Some e ->
  attributes e !! "data-original-text" = Some (innerHTML e) ->
  innerHTML e <> "" ->
  loading_cycle b w = put_els (<[b := set_disabled false e]> (els w)) w.
Proof.
  intros Hb Ha Hne. unfold loading_cycle.
  rewrite (setLoading_on w b e Hb). simpl snd.
  rewrite (setLoading_off _ b (set_innerHTML spinner_html (set_disabled true e)))
    by (rewrite els_put_els; apply lookup_insert_eq).
  simpl snd. rewrite put_els_put_els, els_put_els, insert_insert_eq.
  simpl attributes. rewrite Ha, (or_else_nonempty _ _ Hne).
  reflexivity.
Qed.

Lemma loading_cycles_stored (n : nat) (b : node) (e : element) (w : world) :
  els w !! b = Some e ->
  attributes e !! "data-original-text" = Some (innerHTML e) ->
  innerHTML e <> "" ->
  Nat.iter (S n) (loading_cycle b) w
  = put_els (<[b := set_disabled false e]> (els w)) w.
Proof.
  intros Hb Ha Hne. induction n as [|n IH].
  - simpl. now apply loading_cycle_stored.
  - change (Nat.iter (S (S n)) (loading_cycle b) w)
      with (loading_cycle b (Nat.iter (S n) (loading_cycle b) w)).
    rewrite IH.
    rewrite (loading_cycle_stored b (set_disabled false e));
      [| rewrite els_put_els; apply lookup_insert_eq | exact Ha | exact Hne].
    now rewrite put_els_put_els, els_put_els, insert_insert_eq.
Qed.

(** X8. After [storeOriginalText], any number of loading cycles on a
    listed button whose content is not empty leaves the button with its
    content, enabled, and leaves every other element as
    [storeOriginalText] left it. *)
Theorem loading_cycles_restore (n : nat) (buttons : list node) (b : node)
    (e : element) (w : world) :
  (forall x : node, x ∈ buttons -> is_Some (els w !! x)) ->
  b ∈ buttons ->
  els w !! b = Some e ->
  innerHTML e <> "" ->
  let w1 := snd (storeOriginalText buttons w) in
  let w2 := Nat.iter (S n) (loading_cycle b) w1 in
  els w2 !! b = Some (set_disabled false (stored e)) /\
  innerHTML (set_disabled false (stored e)) = innerHTML e /\
  disabled (set_disabled false (stored e)) = false /\
  forall x : node, x <> b -> els w2 !! x = els w1 !! x.
Proof.
  intros Hall Hin Hb Hne. cbv zeta.
  destruct (storeOriginalText_run buttons w Hall) as (h & Hrun & Hh).
  rewrite Hrun. simpl snd.
  assert (H1 : els (put_els h w) !! b = Some (stored e)).
  { rewrite els_put_els, Hh, bool_decide_eq_true_2 by exact Hin. now rewrite Hb. }
  rewrite (loading_cycles_stored n b (stored e) _ H1);
    [| simpl; apply lookup_insert_eq | exact Hne].
  rewrite !els_put_els. split; [apply lookup_insert_eq |].
  split; [reflexivity |]. split; [reflexivity |].
  intros x Hx. now rewrite lookup_insert_ne by congruence.
Qed.

Lemma spinner_html_nonempty : spinner_html <> "".
Proof. vm_compute. discriminate. Qed.

(** X9. [storeOriginalText] called while the button is loading records
    the spinner: the content the button had before is lost, and
    [setLoading(el, false)] puts the spinner back. *)
Theorem store_while_loading_loses_content (b : node) (e : element) (w : world) :
  els w !! b = Some e ->
  exists e' : element,
    els (store_while_loading b w) !! b = Some e' /\
    innerHTML e' = spinner_html /\
    attributes e' !! "data-original-text" = Some spinner_html /\
    disabled e' = false /\
    forall n : node, n <> b -> els (store_while_loading b w) !! n = els w !! n.
Proof.
  intros Hb. unfold store_while_loading.
  rewrite (setLoading_on w b e Hb). simpl snd.
  set (e1 := set_innerHTML spinner_html (set_disabled true e)).
  set (w1 := put_els (<[b := e1]> (els w)) w).
  assert (H1 : els w1 !! b = Some e1) by (unfold w1; rewrite els_put_els; apply lookup_insert_eq).
  destruct (storeOriginalText_run [b] w1) as (h & Hrun & Hh).
  { intros x Hx. apply list_elem_of_singleton in Hx as ->. eauto. }
  rewrite Hrun. simpl snd.
  assert (H2 : els (put_els h w1) !! b = Some (stored e1)).
  { rewrite els_put_els, Hh, bool_decide_eq_true_2 by apply list_elem_of_here.
    now rewrite H1. }
  rewrite (setLoading_off _ b _ H2). simpl snd.
  rewrite put_els_put_els, els_put_els.
  eexists. split; [apply lookup_insert_eq |].
  simpl. rewrite lookup_insert_eq.
  rewrite (or_else_nonempty _ _ spinner_html_nonempty).
  split; [reflexivity |]. split; [reflexivity |]. split; [reflexivity |].
  intros n Hn. rewrite lookup_insert_ne by congruence.
  rewrite Hh. rewrite bool_decide_eq_false_2.
  - unfold w1. rewrite els_put_els. now rewrite lookup_insert_ne by congruence.
  - intros Hin. apply list_elem_of_singleton in Hin. congruence.
Qed.

Lemma stored_fmap_idempotent (x : option element) :
  stored <$> (stored <$> x) = stored <$> x.
Proof. destruct x as [e|]; simpl; [now rewrite stored_idempotent | reflexivity]. Qed.

(** X10. [storeOriginalText] changes nothing but the attribute
    [data-original-text] of the listed buttons, which receives their
    content, and running it a second time changes nothing at all. *)
Theorem storeOriginalText_frame (buttons : list node) (w : world) :
  (forall b : node, b ∈ buttons -> is_Some (els w !! b)) ->
  exists h : gmap node element,
    storeOriginalText buttons w = (Ok tt, put_els h w) /\
    storeOriginalText buttons (put_els h w) = (Ok tt, put_els h w) /\
    forall (n : node) (e : element),
      els w !! n = Some e ->
      exists e' : element,
        h !! n = Some e' /\
        className e' = className e /\ innerHTML e' = innerHTML e /\
        disabled e' = disabled e /\ parentNode e' = parentNode e /\
        childNodes e' = childNodes e /\
        (forall k : string,
           k <> "data-original-text" -> attributes e' !! k = attributes e !! k) /\
        (n ∈ buttons -> attributes e' !! "data-original-text" = Some (innerHTML e)) /\
        (n ∉ buttons -> e' = e).
Proof.
  intros Hall.
  destruct (storeOriginalText_run buttons w Hall) as (h & Hrun & Hh).
  exists h. split; [exact Hrun |]. split.
  - destruct (storeOriginalText_run buttons (put_els h w)) as (h2 & Hrun2 & Hh2).
    { intros b Hb. rewrite els_put_els, Hh, bool_decide_eq_true_2 by exact Hb.
      destruct (Hall b Hb) as [x ->]. simpl. eauto. }
    rewrite Hrun2, put_els_put_els. do 2 f_equal.
    apply map_eq. intros n. rewrite Hh2, els_put_els, Hh.
    destruct (bool_decide (n ∈ buttons)); [apply stored_fmap_idempotent | reflexivity].
  - intros n e Hn. rewrite Hh, Hn.
    destruct (bool_decide_reflect (n ∈ buttons)) as [Hin | Hnin].
    + exists (stored e). simpl. repeat split; try reflexivity.
      * intros k Hk. now rewrite lookup_insert_ne by congruence.
      * intros _. apply lookup_insert_eq.
      * contradiction.
    + exists e. repeat split; try reflexivity. contradiction.
Qed.

End LoadingMore.

Lemma loading_cycles_restore_witness :
  (forall x : Page.node,
     x ∈ [0%nat; 1%nat] -> is_Some (Page.els Example.two_buttons !! x)) /\
  1%nat ∈ [0%nat; 1%nat] /\
  Page.els Example.two_buttons !! 1%nat
  = Some (Page.Element "btn" "Go" false ∅ None []) /\
  "Go" <> "" /\
  Page.innerHTML
    <$> (Page.els
           (Nat.iter 3 (Scenario.loading_cycle 1%nat)
              (snd (Page.storeOriginalText [0%nat; 1%nat] Example.two_buttons)))
         !! 1%nat)
  = Some "Go".
Proof.
  assert (H1 : forall x : Page.node,
             x ∈ [0%nat; 1%nat] -> is_Some (Page.els Example.two_buttons !! x)).
  { intros b Hb. apply elem_of_cons in Hb as [-> | Hb]; [eexists; reflexivity |].
    apply list_elem_of_singleton in Hb as ->. eexists; reflexivity. }
  assert (H2 : 1%nat ∈ [0%nat; 1%nat])
    by (apply list_elem_of_further, list_elem_of_here).
  assert (H3 : Page.els Example.two_buttons !! 1%nat
               = Some (Page.Element "btn" "Go" false ∅ None [])) by reflexivity.
  assert (H4 : "Go" <> "") by discriminate.
  split; [exact H1 |]. split; [exact H2 |]. split; [exact H3 |]. split; [exact H4 |].
  pose proof (loading_cycles_restore 2 [0%nat; 1%nat] 1%nat _
                Example.two_buttons H1 H2 H3 H4) as H.
  cbv zeta in H. destruct H as [H _].
  exact (eq_trans (f_equal (fmap Page.innerHTML) H) eq_refl).
Defined.

Lemma store_while_loading_loses_content_witness :
  Page.els Example.two_buttons !! 1%nat
  = Some (Page.Element "btn" "Go" false ∅ None []) /\
  exists e' : Page.element,
    Page.els (Scenario.store_while_loading 1%nat Example.two_buttons) !! 1%nat
    = Some e' /\
    Page.innerHTML e' = Page.spinner_html.
Proof.
  assert (H : Page.els Example.two_buttons !! 1%nat
              = Some (Page.Element "btn" "Go" false ∅ None [])) by reflexivity.
  split; [exact H |].
  destruct (store_while_loading_loses_content 1%nat _ Example.two_buttons H)
    as (e' & H1 & H2 & _).
  exists e'. split; [exact H1 | exact H2].
Defined.

Lemma storeOriginalText_frame_witness :
  (forall b : Page.node,
     b ∈ [0%nat; 1%nat] -> is_Some (Page.els Example.two_buttons !! b)) /\
  exists h : gmap Page.node Page.element,
    Page.storeOriginalText [0%nat; 1%nat] Example.two_buttons
    = (Page.Ok tt, Page.put_els h Example.two_buttons).
Proof.
  assert (H : forall b : Page.node,
             b ∈ [0%nat; 1%nat] -> is_Some (Page.els Example.two_buttons !! b)).
  { intros b Hb. apply elem_of_cons in Hb as [-> | Hb]; [eexists; reflexivity |].
    apply list_elem_of_singleton in Hb as ->. eexists; reflexivity. }
  split; [exact H |].
  destruct (storeOriginalText_frame [0%nat; 1%nat] Example.two_buttons H)
    as (h & Hrun & _).
  exists h. exact Hrun.
Defined.

(** ** Explicit runs of the event loop *)

Section LoopRuns.

Import Timer.

Context {C D : Type}.
Variable handler : C -> world C D -> world C D.
Hypothesis handler_keeps_timers :
  forall (c : C) (w : world C D), timers (handler c w) = timers w.

(** Nothing is due: time passes and nothing else happens. *)
Lemma advance_nothing_due (w : world C D) (T : nat) :
  (forall e : entry C, e ∈ pending (timers w) -> (T < due e)%nat) ->
  advance handler T w = World (Nat.max (now w) T) (timers w) (data w).
Proof.
  intros Hlate. unfold advance.
  assert (Hnone : take_due T (timers w) = None).
  { unfold take_due.
    destruct (earliest (pending (timers w))) as [m|] eqn:E; [| reflexivity].
    destruct (earliest_spec _ _ E) as [Hin _]. specialize (Hlate m Hin).
    destruct (Nat.leb_spec (due m) T); [lia | reflexivity]. }
  destruct (length (pending (timers w))); simpl; [reflexivity |].
  now rewrite Hnone.
Qed.

(** The first registered entry is due and no other entry is due
    earlier: it fires first. *)
Lemma advance_head_due (w : world C D) (e : entry C) (rest : list (entry C))
    (T : nat) :
  pending (timers w) = e :: rest ->
  (forall e' : entry C, e' ∈ rest -> (due e <= due e')%nat /\ id e' <> id e) ->
  (due e <= T)%nat ->
  advance handler T w
  = advance handler T
      (handler (callback e)
         (World (Nat.max (now w) (due e)) (Queue (next_id (timers w)) rest)
                (data w))).
Proof.
  intros Hp Hrest HT. unfold advance at 1. rewrite Hp. simpl length.
  simpl fire.
  assert (Htd : take_due T (timers w)
                = Some (e, Queue (next_id (timers w)) rest)).
  { unfold take_due. rewrite Hp.
    assert (He : earliest (e :: rest) = Some e).
    { simpl. destruct (earliest rest) as [m|] eqn:E; [| reflexivity].
      destruct (earliest_spec _ _ E) as [Hin _].
      destruct (Hrest m Hin) as [Hd _].
      destruct (Nat.ltb_spec (due m) (due e)); [lia | reflexivity]. }
    rewrite He. destruct (Nat.leb_spec (due e) T); [| lia].
    do 2 f_equal. unfold clearTimeout. rewrite Hp. f_equal. simpl.
    rewrite Nat.eqb_refl. simpl.
    clear - Hrest. induction rest as [|x rest IH]; [reflexivity |]. simpl.
    destruct (Hrest x (list_elem_of_here _ _)) as [_ Hid].
    destruct (Nat.eqb_spec (id x) (id e)); [contradiction |]. simpl.
    f_equal. apply IH. intros e' He'. apply Hrest. now apply list_elem_of_further. }
  rewrite Htd. unfold advance. now rewrite handler_keeps_timers.
Qed.

End LoopRuns.

(** ** More about showAlert and copyToClipboard *)

Section AlertMore.

Import Page.

(** [showAlert] with no container on a page without [.container]: the
    element is created and then the insertion throws. *)
Lemma showAlert_no_target (message type : string) (w : world) :
  selector (Timer.data w) ".container" = None ->
  showAlert message type None w
  = (Throw (TypeError "Cannot read properties of null (reading 'insertBefore')"),
     put_els (<[next_node (Timer.data w)
                := Element (alert_class type) (alert_html message) false ∅ None []]>
                (els w))
             (Timer.set_data
                (Page (els w) (S (next_node (Timer.data w)))
                      (selector (Timer.data w)) (console (Timer.data w))
                      (clipboard (Timer.data w)) (remove_calls (Timer.data w))) w)).
Proof.
  intros Hsel.
  destruct w as [n [nid pend] [h nn sel con clip rc]]. simpl in *.
  unfold showAlert, mbind, M_bind, mret, M_ret, createElement, update,
    querySelector, throw, put_els, els, Timer.set_data, set_elements.
  cbn [Timer.now Timer.timers Timer.data elements next_node selector console
       clipboard remove_calls].
  rewrite Hsel.
  rewrite (alter_lookup_insert (set_className (alert_class type)) nn empty_element)
    by apply lookup_insert_eq.
  rewrite insert_insert_eq.
  rewrite (alter_lookup_insert _ nn (set_className (alert_class type) empty_element))
    by apply lookup_insert_eq.
  now rewrite insert_insert_eq.
Qed.

(** X11. On a page without a default container no notification
    appears.  If the clipboard write is fulfilled, the failure of the
    success notification is caught by the error handler, which logs it
    as if the copy had failed and fails in turn; if the write is
    rejected, the error is logged and the error notification fails.
    Either way the chain ends rejected with the [TypeError] and no
    timer is set.  Each [showAlert] that fails leaves the [div] it
    created, with no parent: two in the fulfilled case, one in the
    rejected case; every other element is as it was. *)
Theorem copyToClipboard_without_container (text : string) (err : error) (w : world) :
  selector (Timer.data w) ".container" = None ->
  let w1 := snd (copyToClipboard text w) in
  let oops := TypeError "Cannot read properties of null (reading 'insertBefore')" in
  let fulfilled := copyToClipboard_settled (Fulfilled tt) w1 in
  let rejected := copyToClipboard_settled (Rejected err) w1 in
  let a := next_node (Timer.data w) in
  fst fulfilled = Rejected oops /\
  console (Timer.data (snd fulfilled))
  = console (Timer.data w) ++ [("Could not copy text: ", oops)] /\
  fst rejected = Rejected oops /\
  console (Timer.data (snd rejected))
  = console (Timer.data w) ++ [("Could not copy text: ", err)] /\
  Timer.timers (snd fulfilled) = Timer.timers w /\
  Timer.timers (snd rejected) = Timer.timers w /\
  (forall n : node,
     n <> a -> n <> S a -> els (snd fulfilled) !! n = els w !! n) /\
  parentNode <$> (els (snd fulfilled) !! a) = Some None /\
  parentNode <$> (els (snd fulfilled) !! S a) = Some None /\
  (forall n : node, n <> a -> els (snd rejected) !! n = els w !! n) /\
  parentNode <$> (els (snd rejected) !! a) = Some None.
Proof.
  intros Hsel. cbv zeta.
  unfold copyToClipboard_settled, promise_then, promise_catch, onCopied,
    onCopyFailed.
  unfold copyToClipboard, writeText. simpl snd.
  rewrite (showAlert_no_target "Copied to clipboard!" "success") by exact Hsel.
  unfold mbind, M_bind, console_error.
  rewrite !(showAlert_no_target "Failed to copy to clipboard" "error") by exact Hsel.
  simpl. unfold els. simpl.
  split; [reflexivity |]. split; [reflexivity |]. split; [reflexivity |].
  split; [reflexivity |]. split; [reflexivity |]. split; [reflexivity |].
  split.
  { intros n H1 H2. now rewrite !lookup_insert_ne by congruence. }
  split.
  { rewrite lookup_insert_ne by lia. now rewrite lookup_insert_eq. }
  split; [now rewrite lookup_insert_eq |].
  split.
  { intros n H1. now rewrite lookup_insert_ne by congruence. }
  now rewrite lookup_insert_eq.
Qed.

Lemma copyToClipboard_without_container_witness :
  selector (Timer.data Example.without_container) ".container" = None /\
  fst (copyToClipboard_settled (Fulfilled tt)
         (snd (copyToClipboard "text" Example.without_container)))
  = Rejected (TypeError "Cannot read properties of null (reading 'insertBefore')").
Proof.
  assert (H : selector (Timer.data Example.without_container) ".container" = None)
    by reflexivity.
  split; [exact H |].
  exact (proj1 (copyToClipboard_without_container "text"
                  (DOMException "NotAllowedError") Example.without_container H)).
Defined.


Lemma advance_idle (w : world) (T : nat) :
  (forall e : Timer.entry closure,
     e ∈ Timer.pending (Timer.timers w) -> (T < Timer.due e)%nat) ->
  Timer.advance handler T w
  = Timer.World (Nat.max (Timer.now w) T) (Timer.timers w) (Timer.data w).
Proof. apply advance_nothing_due. Qed.

Lemma advance_fire_head (w : world) (e : Timer.entry closure)
    (rest : list (Timer.entry closure)) (T : nat) :
  Timer.pending (Timer.timers w) = e :: rest ->
  (forall e' : Timer.entry closure,
     e' ∈ rest ->
     (Timer.due e <= Timer.due e')%nat /\ Timer.id e' <> Timer.id e) ->
  (Timer.due e <= T)%nat ->
  Timer.advance handler T w
  = Timer.advance handler T
      (handler (Timer.callback e)
         (Timer.World (Nat.max (Timer.now w) (Timer.due e))
            (Timer.Queue (Timer.next_id (Timer.timers w)) rest) (Timer.data w))).
Proof. apply advance_head_due. exact handler_timers. Qed.

Lemma detach_attached (h : gmap node element) (b p : node) (eb ep : element) :
  h !! b = Some eb -> parentNode eb = Some p -> h !! p = Some ep -> p <> b ->
  detach b h
  = <[b := set_parentNode None eb]>
      (<[p := set_childNodes (prune b (childNodes ep)) ep]> h).
Proof.
  intros Hb Hpar Hp Hne. unfold detach. rewrite Hb, Hpar.
  rewrite (alter_lookup_insert _ p ep h Hp).
  apply alter_lookup_insert. now rewrite lookup_insert_ne.
Qed.

Lemma prune_absent (a : node) (l : list node) : a ∉ l -> prune a l = l.
Proof.
  induction l as [|x l IH]; intros Ha; [reflexivity |].
  apply not_elem_of_cons in Ha as [Hne Ha]. unfold prune in *. simpl.
  destruct (Nat.eqb_spec x a); [congruence |]. simpl. now rewrite IH.
Qed.

Lemma prune_head (a : node) (l : list node) : a ∉ l -> prune a (a :: l) = l.
Proof.
  intros Ha. unfold prune. simpl. rewrite Nat.eqb_refl. simpl.
  now apply prune_absent.
Qed.

(** The callback of a banner that is still a child of [c]. *)
Lemma handler_attached (a c : node) (ea ec : element) (w : world) :
  els w !! a = Some ea -> parentNode ea = Some c -> els w !! c = Some ec ->
  c <> a ->
  handler (AutoDismiss a) w
  = Timer.set_data
      (Page (<[a := set_parentNode None ea]>
               (<[c := set_childNodes (prune a (childNodes ec)) ec]> (els w)))
            (next_node (Timer.data w)) (selector (Timer.data w))
            (console (Timer.data w)) (clipboard (Timer.data w))
            (remove_calls (Timer.data w) ++ [a])) w.
Proof.
  intros Ha Hpar Hc Hne. rewrite (handler_run a ea w Ha), Hpar. cbv zeta.
  unfold els in *.
  now rewrite (detach_attached _ a c ea ec Ha Hpar Hc Hne).
Qed.

(** X12. With no other timer pending, a banner shown and then left
    alone for 5 seconds is gone without a trace in the tree: the
    container has exactly the children it had, in the same order, every
    other element is as it was, and no timer is left. *)
Theorem showAlert_then_wait_restores (message type : string)
    (container : option node) (c : node) (ec : element) (w : world) (T : nat) :
  match container with
  | Some x => Some x
  | None => selector (Timer.data w) ".container"
  end = Some c ->
  els w !! c = Some ec ->
  els w !! next_node (Timer.data w) = None ->
  next_node (Timer.data w) ∉ childNodes ec ->
  Timer.pending (Timer.timers w) = [] ->
  (Timer.now w + 5000 <= T)%nat ->
  let a := next_node (Timer.data w) in
  let w2 := Timer.advance handler T (snd (showAlert message type container w)) in
  els w2 = <[a := set_parentNode None (banner message type c)]> (els w) /\
  els w2 !! c = Some ec /\
  Timer.pending (Timer.timers w2) = [] /\
  Timer.now w2 = T.
Proof.
  intros Htarget Hc Ha Hfresh Hpend HT. cbv zeta.
  rewrite (showAlert_inserts message type container c ec w Htarget Hc Ha).
  simpl snd. set (a := next_node (Timer.data w)) in *.
  assert (Hne : c <> a) by congruence.
  rewrite Hpend. simpl app.
  erewrite advance_fire_head; [| reflexivity | intros e' He'; inversion He'
                               | simpl; unfold auto_dismiss_delay; lia].
  cbn [Timer.callback Timer.now Timer.due Timer.timers Timer.next_id Timer.data].
  erewrite (handler_attached a c (banner message type c)
              (set_childNodes (a :: childNodes ec) ec));
    [| unfold els; simpl; apply lookup_insert_eq | reflexivity
     | unfold els; simpl; rewrite lookup_insert_ne by congruence;
       apply lookup_insert_eq
     | exact Hne].
  rewrite advance_idle by (intros e He; inversion He).
  unfold els. simpl. fold (els w).
  rewrite Nat.eqb_refl. simpl negb. cbv iota.
  rewrite prune_absent by exact Hfresh.
  assert (Hheap : <[a := set_parentNode None (banner message type c)]>
                    (<[c := set_childNodes (childNodes ec)
                              (set_childNodes (a :: childNodes ec) ec)]>
                       (<[a := banner message type c]>
                          (<[c := set_childNodes (a :: childNodes ec) ec]> (els w))))
                  = <[a := set_parentNode None (banner message type c)]> (els w)).
  { apply map_eq. intros n.
    destruct (decide (n = a)) as [-> | Hna]; [now rewrite !lookup_insert_eq |].
    rewrite !(lookup_insert_ne _ a n) by congruence.
    destruct (decide (n = c)) as [-> | Hnc].
    - rewrite lookup_insert_eq, Hc. f_equal. now destruct ec.
    - now rewrite !lookup_insert_ne by congruence. }
  rewrite Hheap. split; [reflexivity |]. split.
  { now rewrite lookup_insert_ne by congruence. }
  split; [reflexivity |]. unfold auto_dismiss_delay in *. lia.
Qed.

Lemma showAlert_then_wait_restores_witness :
  els Example.with_container !! 0%nat = Some Example.container /\
  els Example.with_container !! next_node (Timer.data Example.with_container) = None /\
  (next_node (Timer.data Example.with_container) ∉ childNodes Example.container) /\
  Timer.pending (Timer.timers Example.with_container) = [] /\
  (Timer.now Example.with_container + 5000 <= 6000)%nat /\
  els (Timer.advance handler 6000
         (snd (showAlert "Saved" "success" None Example.with_container))) !! 0%nat
  = Some Example.container.
Proof.
  assert (H1 : els Example.with_container !! 0%nat = Some Example.container)
    by reflexivity.
  assert (H2 : els Example.with_container
               !! next_node (Timer.data Example.with_container) = None)
    by reflexivity.
  assert (H3 : next_node (Timer.data Example.with_container)
               ∉ childNodes Example.container) by apply not_elem_of_nil.
  assert (H4 : Timer.pending (Timer.timers Example.with_container) = [])
    by reflexivity.
  assert (H5 : (Timer.now Example.with_container + 5000 <= 6000)%nat)
    by (apply Nat.leb_le; vm_compute; reflexivity).
  split; [exact H1 |]. split; [exact H2 |]. split; [exact H3 |].
  split; [exact H4 |]. split; [exact H5 |].
  exact (proj1 (proj2 (showAlert_then_wait_restores "Saved" "success" None 0%nat
                         Example.container Example.with_container 6000
                         eq_refl H1 H2 H3 H4 H5))).
Defined.


(** X13. With no other timer pending, two banners shown on the same
    container less than 5 seconds apart stack with the newer one
    first, and each leaves 5 seconds after it was shown: first the
    older one, the newer one staying in front of the former children,
    then the newer one, after which the container is as it was before
    both. *)
Theorem showAlert_stacking (m1 ty1 m2 ty2 : string) (container : option node)
    (c : node) (ec : element) (w : world) (t2 : nat) :
  match container with
  | Some x => Some x
  | None => selector (Timer.data w) ".container"
  end = Some c ->
  els w !! c = Some ec ->
  els w !! next_node (Timer.data w) = None ->
  els w !! S (next_node (Timer.data w)) = None ->
  next_node (Timer.data w) ∉ childNodes ec ->
  S (next_node (Timer.data w)) ∉ childNodes ec ->
  Timer.pending (Timer.timers w) = [] ->
  (Timer.now w <= t2 < Timer.now w + 5000)%nat ->
  let a1 := next_node (Timer.data w) in
  let a2 := S a1 in
  let w1 := snd (showAlert m1 ty1 container w) in
  let w2 := snd (showAlert m2 ty2 container (Timer.advance handler t2 w1)) in
  childNodes <$> (els w2 !! c) = Some (a2 :: a1 :: childNodes ec) /\
  (forall T : nat,
     (Timer.now w + 5000 <= T < t2 + 5000)%nat ->
     let w3 := Timer.advance handler T w2 in
     childNodes <$> (els w3 !! c) = Some (a2 :: childNodes ec) /\
     parentNode <$> (els w3 !! a1) = Some None /\
     parentNode <$> (els w3 !! a2) = Some (Some c)) /\
  (forall T : nat,
     (t2 + 5000 <= T)%nat ->
     let w3 := Timer.advance handler T w2 in
     els w3 !! c = Some ec /\
     parentNode <$> (els w3 !! a1) = Some None /\
     parentNode <$> (els w3 !! a2) = Some None /\
     Timer.pending (Timer.timers w3) = []).
Proof.
  intros Htarget Hc Ha1 Ha2 Hf1 Hf2 Hpend Ht2. cbv zeta.
  set (a1 := next_node (Timer.data w)) in *.
  assert (Hca1 : c <> a1) by congruence.
  assert (Hca2 : c <> S a1).
  { intros E. assert (Hn : els w !! c = None) by (rewrite E; exact Ha2).
    rewrite Hn in Hc. discriminate. }
  (* the first banner *)
  rewrite (showAlert_inserts m1 ty1 container c ec w Htarget Hc Ha1).
  simpl snd. fold a1. rewrite Hpend. simpl app.
  set (E1 := Timer.Entry (Timer.next_id (Timer.timers w))
                         (Timer.now w + auto_dismiss_delay) (AutoDismiss a1)).
  set (ec1 := set_childNodes (a1 :: childNodes ec) ec).
  set (h1 := <[a1 := banner m1 ty1 c]> (<[c := ec1]> (elements (Timer.data w)))).
  rewrite advance_idle;
    [| intros e He; apply list_elem_of_singleton in He as ->; simpl;
       unfold auto_dismiss_delay; lia].
  cbn [Timer.now Timer.timers Timer.data].
  replace (Nat.max (Timer.now w) t2) with t2 by lia.
  (* the second banner *)
  assert (Hc1 : h1 !! c = Some ec1).
  { unfold h1. rewrite lookup_insert_ne by congruence. apply lookup_insert_eq. }
  assert (Hn1 : h1 !! S a1 = None).
  { unfold h1. rewrite !lookup_insert_ne by (congruence || lia). exact Ha2. }
  erewrite (showAlert_inserts m2 ty2 container c ec1);
    [| exact Htarget | exact Hc1 | exact Hn1].
  simpl snd.
  cbn [Timer.now Timer.timers Timer.data Timer.next_id Timer.pending next_node
       elements selector console clipboard remove_calls].
  simpl app.
  set (E2 := Timer.Entry (S (Timer.next_id (Timer.timers w)))
                         (t2 + auto_dismiss_delay) (AutoDismiss (S a1))).
  set (ec2 := set_childNodes (S a1 :: childNodes ec1) ec1).
  set (h2 := <[S a1 := banner m2 ty2 c]> (<[c := ec2]> h1)).
  assert (H2c : h2 !! c = Some ec2).
  { unfold h2. rewrite lookup_insert_ne by congruence. apply lookup_insert_eq. }
  assert (H2a1 : h2 !! a1 = Some (banner m1 ty1 c)).
  { unfold h2, h1. rewrite !lookup_insert_ne by (congruence || lia).
    apply lookup_insert_eq. }
  assert (H2a2 : h2 !! S a1 = Some (banner m2 ty2 c)).
  { unfold h2. apply lookup_insert_eq. }
  split.
  { change (childNodes <$> (h2 !! c) = Some (S a1 :: a1 :: childNodes ec)).
    now rewrite H2c. }
  (* the first timer *)
  set (w2 := Timer.World t2 _ _).
  assert (Hfire1 : forall T : nat,
             (Timer.now w + 5000 <= T)%nat ->
             Timer.advance handler T w2
             = Timer.advance handler T
                 (Timer.World (Nat.max t2 (Timer.now w + auto_dismiss_delay))
                    (Timer.Queue (S (S (Timer.next_id (Timer.timers w)))) [E2])
                    (Page (<[a1 := set_parentNode None (banner m1 ty1 c)]>
                             (<[c := set_childNodes (S a1 :: childNodes ec) ec]> h2))
                          (S (S a1)) (selector (Timer.data w))
                          (console (Timer.data w)) (clipboard (Timer.data w))
                          (remove_calls (Timer.data w) ++ [a1])))).
  { intros T HT.
    rewrite (advance_fire_head w2 E1 [E2] T); [| reflexivity | |
      simpl; unfold auto_dismiss_delay; lia].
    - cbn [Timer.callback E1 Timer.now Timer.due Timer.timers Timer.next_id
           Timer.data w2].
      erewrite (handler_attached a1 c (banner m1 ty1 c) ec2);
        [| exact H2a1 | reflexivity | exact H2c | exact Hca1 ].
      unfold Timer.set_data. cbn [Timer.now Timer.timers Timer.data next_node
        selector console clipboard remove_calls]. unfold els. simpl elements.
      fold h2. do 4 f_equal. unfold ec2, ec1. simpl childNodes.
      rewrite prune_cons_ne by lia. rewrite prune_head by exact Hf1.
      now destruct ec.
    - intros e' He'. apply list_elem_of_singleton in He' as ->. simpl.
      unfold auto_dismiss_delay. lia. }
  set (h3 := <[a1 := set_parentNode None (banner m1 ty1 c)]>
               (<[c := set_childNodes (S a1 :: childNodes ec) ec]> h2)) in *.
  assert (H3c : h3 !! c = Some (set_childNodes (S a1 :: childNodes ec) ec)).
  { unfold h3. rewrite lookup_insert_ne by congruence. apply lookup_insert_eq. }
  assert (H3a1 : h3 !! a1 = Some (set_parentNode None (banner m1 ty1 c))).
  { unfold h3. apply lookup_insert_eq. }
  assert (H3a2 : h3 !! S a1 = Some (banner m2 ty2 c)).
  { unfold h3. rewrite !lookup_insert_ne by (congruence || lia). exact H2a2. }
  split.
  - intros T HT. rewrite Hfire1 by lia.
    rewrite advance_idle;
      [| intros e He; apply list_elem_of_singleton in He as ->; simpl;
         unfold auto_dismiss_delay; lia].
    cbv zeta.
    change (childNodes <$> (h3 !! c) = Some (S a1 :: childNodes ec) /\
            parentNode <$> (h3 !! a1) = Some None /\
            parentNode <$> (h3 !! S a1) = Some (Some c)).
    rewrite H3c, H3a1, H3a2. repeat split.
  - intros T HT. rewrite Hfire1 by lia.
    erewrite advance_fire_head; [| reflexivity | intros e' He'; inversion He'
                                 | simpl; unfold auto_dismiss_delay; lia].
    cbn [Timer.callback E2 Timer.now Timer.due Timer.timers Timer.next_id
         Timer.data].
    erewrite (handler_attached (S a1) c (banner m2 ty2 c)
                (set_childNodes (S a1 :: childNodes ec) ec));
      [| exact H3a2 | reflexivity | exact H3c | exact Hca2].
    rewrite advance_idle by (intros e He; inversion He).
    unfold els. simpl.
    rewrite lookup_insert_ne, lookup_insert_eq by congruence.
    rewrite lookup_insert_ne, lookup_insert_ne, H3a1 by (congruence || lia).
    rewrite lookup_insert_eq.
    rewrite Nat.eqb_refl. simpl negb. cbv iota.
    rewrite prune_absent by exact Hf2.
    repeat split. f_equal. now destruct ec.
Qed.

End AlertMore.

Lemma showAlert_stacking_witness :
  Page.els Example.with_container !! 0%nat = Some Example.container /\
  Timer.pending (Timer.timers Example.with_container) = [] /\
  (Timer.now Example.with_container <= 1000
   < Timer.now Example.with_container + 5000)%nat /\
  Page.childNodes
    <$> (Page.els
           (snd (Page.showAlert "Second" "info" None
                   (Timer.advance Page.handler 1000
                      (snd (Page.showAlert "First" "success" None
                              Example.with_container))))) !! 0%nat)
  = Some [2%nat; 1%nat].
Proof.
  assert (H : (Timer.now Example.with_container <= 1000
               < Timer.now Example.with_container + 5000)%nat)
    by (split; [apply Nat.leb_le | apply Nat.ltb_lt]; vm_compute; reflexivity).
  split; [reflexivity |]. split; [reflexivity |]. split; [exact H |].
  exact (proj1 (showAlert_stacking "First" "success" "Second" "info" None 0%nat
                  Example.container Example.with_container 1000
                  eq_refl eq_refl eq_refl eq_refl
                  (not_elem_of_nil _) (not_elem_of_nil _) eq_refl H)).
Defined.

(** ** Facts about isInViewport *)

Section ViewportFacts.

Import Viewport.

Open Scope Q_scope.

Lemma isInViewport_true (r : rect) (v : window) :
  isInViewport r v = true <->
  0 <= top r /\ 0 <= left r /\ bottom r <= viewHeight v /\ right r <= viewWidth v.
Proof.
  unfold isInViewport. rewrite !andb_true_iff, !Qle_bool_iff. tauto.
Qed.

Lemma or_number_nonzero (a b : Q) : ~ a == 0 -> or_number a b = a.
Proof.
  intros Ha. unfold or_number. destruct (Qeq_bool a 0) eqn:E; [| reflexivity].
  apply Qeq_bool_eq in E. contradiction.
Qed.

(** X14. An element is reported in the viewport only if it fits into
    it: one that is taller or wider than the viewport never is.  The
    viewport is what the function compares with: the inner size of the
    window or, when that is zero, the client size of the document
    element.  Being in the viewport is kept when neither the height nor
    the width of that viewport shrinks; in particular when the inner
    size of the window grows from a size that is positive, since then
    the client size plays no part.  An element whose rectangle is all
    zero, as for an element that is not rendered, is reported in every
    viewport of non-negative size. *)
Theorem isInViewport_fits (r : rect) (v v' : window) :
  (viewHeight v < bottom r - top r -> isInViewport r v = false) /\
  (viewWidth v < right r - left r -> isInViewport r v = false) /\
  (isInViewport r v = true ->
   viewHeight v <= viewHeight v' -> viewWidth v <= viewWidth v' ->
   isInViewport r v' = true) /\
  (isInViewport r v = true ->
   0 < innerHeight v -> innerHeight v <= innerHeight v' ->
   0 < innerWidth v -> innerWidth v <= innerWidth v' ->
   isInViewport r v' = true) /\
  (0 <= viewHeight v -> 0 <= viewWidth v ->
   isInViewport (Rect 0 0 0 0) v = true).
Proof.
  split; [| split; [| split; [| split]]].
  - intros Hbig. destruct (isInViewport r v) eqn:E; [| reflexivity].
    apply isInViewport_true in E as (Ht & _ & Hb & _). lra.
  - intros Hbig. destruct (isInViewport r v) eqn:E; [| reflexivity].
    apply isInViewport_true in E as (_ & Hl & _ & Hr). lra.
  - intros E Hh Hw.
    apply isInViewport_true in E as (Ht & Hl & Hb & Hr).
    apply isInViewport_true. repeat split; lra.
  - intros E Hh Hhh Hw Hww.
    apply isInViewport_true in E as (Ht & Hl & Hb & Hr).
    apply isInViewport_true. unfold viewHeight, viewWidth in *.
    rewrite or_number_nonzero in Hb by lra.
    rewrite or_number_nonzero in Hr by lra.
    rewrite !or_number_nonzero by lra. lra.
  - intros Hh Hw. apply isInViewport_true. simpl. repeat split; lra.
Qed.

End ViewportFacts.

(** ** Facts about the page initialisation *)

Section WidgetsFacts.

Import Widgets.

Lemma set_bar_frame (d : dom) (bar : node) :
  attributes (set_bar d bar) = attributes d /\
  select_all (set_bar d bar) = select_all d /\
  accepts_width (set_bar d bar) = accepts_width d /\
  bootstrap (set_bar d bar) = bootstrap d /\
  tooltips (set_bar d bar) = tooltips d /\
  popovers (set_bar d bar) = popovers d.
Proof.
  unfold set_bar, set_width.
  destruct (getAttribute d bar "data-progress") as [p|]; [| tauto].
  destruct (String.eqb p ""); [tauto |].
  destruct (accepts_width d (p +:+ "%")); simpl; tauto.
Qed.

Lemma set_bar_width (d : dom) (bar n : node) :
  style_width (set_bar d bar) !! n
  = if decide (n = bar) then
      match bar_width d bar with
      | Some v => Some v
      | None => style_width d !! n
      end
    else style_width d !! n.
Proof.
  unfold set_bar, bar_width, set_width.
  destruct (getAttribute d bar "data-progress") as [p|];
    [destruct (String.eqb p ""); [| destruct (accepts_width d (p +:+ "%"))] |];
    simpl; try (now destruct (decide (n = bar))).
  destruct (decide (n = bar)) as [-> | Hne];
    [apply lookup_insert_eq | now apply lookup_insert_ne].
Qed.

Lemma bar_width_set_bar (d : dom) (bar n : node) :
  bar_width (set_bar d bar) n = bar_width d n.
Proof.
  unfold bar_width, getAttribute.
  now destruct (set_bar_frame d bar) as (-> & _ & -> & _).
Qed.

Lemma foldl_set_bar (bars : list node) :
  forall d : dom,
    let d' := foldl set_bar d bars in
    attributes d' = attributes d /\
    select_all d' = select_all d /\
    accepts_width d' = accepts_width d /\
    bootstrap d' = bootstrap d /\
    tooltips d' = tooltips d /\
    popovers d' = popovers d /\
    forall n : node,
      style_width d' !! n
      = if bool_decide (n ∈ bars) then
          match bar_width d n with
          | Some v => Some v
          | None => style_width d !! n
          end
        else style_width d !! n.
Proof.
  induction bars as [|b bars IH]; intros d; simpl.
  - repeat split.
  - destruct (IH (set_bar d b)) as (H1 & H2 & H3 & H4 & H5 & H6 & H7).
    destruct (set_bar_frame d b) as (F1 & F2 & F3 & F4 & F5 & F6).
    rewrite H1, H2, H3, H4, H5, H6. repeat split; try assumption.
    intros n. rewrite H7, bar_width_set_bar, set_bar_width.
    destruct (bool_decide_reflect (n ∈ bars)) as [Hin | Hnin].
    + rewrite bool_decide_eq_true_2 by now apply list_elem_of_further.
      destruct (bar_width d n) eqn:E; [reflexivity |].
      destruct (decide (n = b)) as [-> | ?]; [now rewrite E | reflexivity].
    + destruct (decide (n = b)) as [-> | Hne].
      * now rewrite bool_decide_eq_true_2 by apply list_elem_of_here.
      * rewrite bool_decide_eq_false_2; [reflexivity |].
        intros [? | ?]%elem_of_cons; contradiction.
Qed.

(** X15. [setProgressBars] gives every selected bar whose
    [data-progress] attribute is not empty the width made of the
    attribute and a percent sign, provided the CSS parser accepts it;
    it leaves every other width and everything else as it is, and
    running it again changes nothing. *)
Theorem setProgressBars_widths (d : dom) :
  let bars := select_all d ".progress-bar[data-progress]" in
  let d' := setProgressBars d in
  (forall n : node,
     style_width d' !! n
     = if bool_decide (n ∈ bars) then
         match getAttribute d n "data-progress" with
         | Some p =>
             if String.eqb p "" then style_width d !! n
             else if accepts_width d (p +:+ "%") then Some (p +:+ "%")
             else style_width d !! n
         | None => style_width d !! n
         end
       else style_width d !! n) /\
  attributes d' = attributes d /\
  tooltips d' = tooltips d /\ popovers d' = popovers d /\
  setProgressBars d' = d'.
Proof.
  cbv zeta. unfold setProgressBars.
  destruct (foldl_set_bar (select_all d ".progress-bar[data-progress]") d)
    as (H1 & H2 & H3 & H4 & H5 & H6 & H7).
  set (bars := select_all d ".progress-bar[data-progress]") in *.
  set (d' := foldl set_bar d bars) in *.
  assert (Hw : forall n : node,
             style_width d' !! n
             = if bool_decide (n ∈ bars) then
                 match getAttribute d n "data-progress" with
                 | Some p =>
                     if String.eqb p "" then style_width d !! n
                     else if accepts_width d (p +:+ "%") then Some (p +:+ "%")
                     else style_width d !! n
                 | None => style_width d !! n
                 end
               else style_width d !! n).
  { intros n. rewrite H7. unfold bar_width.
    destruct (bool_decide (n ∈ bars)); [| reflexivity].
    destruct (getAttribute d n "data-progress") as [p|]; [| reflexivity].
    destruct (String.eqb p ""); [reflexivity |].
    now destruct (accepts_width d (p +:+ "%")). }
  split; [exact Hw |]. split; [exact H1 |]. split; [exact H5 |].
  split; [exact H6 |].
  rewrite H2. fold bars.
  destruct (foldl_set_bar bars d') as (G1 & G2 & G3 & G4 & G5 & G6 & G7).
  set (d2 := foldl set_bar d' bars) in *.
  assert (Hsw : style_width d2 = style_width d').
  { apply map_eq. intros n. rewrite G7.
    destruct (bool_decide (n ∈ bars)) eqn:E; [| reflexivity].
    unfold bar_width, getAttribute. rewrite H1, H3.
    specialize (Hw n). rewrite E in Hw. unfold getAttribute in Hw.
    destruct (attributes d !! n ≫= _) as [p|]; [| reflexivity].
    destruct (String.eqb p ""); [reflexivity |].
    destruct (accepts_width d (p +:+ "%")); [now rewrite Hw | reflexivity]. }
  destruct d2 as [a2 s2 c2 w2 b2 t2 p2], d' as [a1 s1 c1 w1 b1 t1 p1].
  simpl in *. now subst.
Qed.

Lemma map_each_Tooltip (l : list node) :
  forall d : dom,
    bootstrap d = true ->
    map_each new_Tooltip l d
    = (Ok tt, Dom (attributes d) (select_all d) (accepts_width d) (style_width d)
                  true (tooltips d ++ l) (popovers d)).
Proof.
  induction l as [|x l IH]; intros d Hb; simpl.
  - rewrite app_nil_r. destruct d; simpl in *. now subst.
  - unfold new_Tooltip at 1. rewrite Hb. rewrite IH by reflexivity. simpl.
    now rewrite <- app_assoc.
Qed.

Lemma map_each_Popover (l : list node) :
  forall d : dom,
    bootstrap d = true ->
    map_each new_Popover l d
    = (Ok tt, Dom (attributes d) (select_all d) (accepts_width d) (style_width d)
                  true (tooltips d) (popovers d ++ l)).
Proof.
  induction l as [|x l IH]; intros d Hb; simpl.
  - rewrite app_nil_r. destruct d; simpl in *. now subst.
  - unfold new_Popover at 1. rewrite Hb. rewrite IH by reflexivity. simpl.
    now rewrite <- app_assoc.
Qed.

(** X16. With Bootstrap loaded the handler creates one tooltip for each
    tooltip trigger and one popover for each popover trigger, in
    document order, and then sets the progress bars.  Without
    Bootstrap it still sets the progress bars when the page has no
    trigger at all, but throws a [ReferenceError] at the first trigger
    otherwise, and then the progress bars are not set. *)
Theorem onContentLoaded_outcome (d : dom) :
  let ts := select_all d tooltip_selector in
  let ps := select_all d popover_selector in
  (bootstrap d = true ->
   onContentLoaded d
   = (Ok tt,
      setProgressBars
        (Dom (attributes d) (select_all d) (accepts_width d) (style_width d)
             true (tooltips d ++ ts) (popovers d ++ ps)))) /\
  (bootstrap d = false -> ts = [] -> ps = [] ->
   onContentLoaded d = (Ok tt, setProgressBars d)) /\
  (bootstrap d = false -> ts <> [] \/ ps <> [] ->
   onContentLoaded d = (Throw (ReferenceError "bootstrap"), d)).
Proof.
  cbv zeta. unfold onContentLoaded. split; [| split].
  - intros Hb. rewrite map_each_Tooltip by exact Hb. simpl.
    now rewrite map_each_Popover by reflexivity.
  - intros _ -> Hp. simpl. now rewrite Hp.
  - intros Hb Hor.
    destruct (select_all d tooltip_selector) as [|t ts].
    + simpl. destruct (select_all d popover_selector) as [|p ps].
      * destruct Hor as [H | H]; contradiction.
      * simpl. unfold new_Popover. now rewrite Hb.
    + simpl. unfold new_Tooltip. now rewrite Hb.
Qed.

End WidgetsFacts.

(** ** Facts about downloadFile *)

Section DownloadFacts.

Import Page Download.

Lemma download_handler_timers (c : closure) (w : world) :
  Timer.timers (handler c w) = Timer.timers w.
Proof.
  destruct c as [a url]. unfold handler, cleanup, mbind, M_bind, get_body,
    removeChild, revokeObjectURL.
  destruct (body (Timer.data w)) as [b|]; [| reflexivity].
  destruct (elements (Timer.data w) !! a) as [e|]; [| reflexivity].
  destruct (bool_decide (parentNode e = Some b)); reflexivity.
Qed.

(** What [downloadFile] does on a page that has a body. *)
Lemma downloadFile_run (content fileName mimeType : string) (b : node)
    (eb : element) (w : world) :
  body (Timer.data w) = Some b ->
  elements (Timer.data w) !! b = Some eb ->
  elements (Timer.data w) !! next_node (Timer.data w) = None ->
  let d := Timer.data w in
  let a := next_node d in
  let url := mint (next_url d) in
  downloadFile content fileName mimeType w
  = (Ok tt,
     Timer.World (Timer.now w)
       (Timer.Queue (S (Timer.next_id (Timer.timers w)))
          (Timer.pending (Timer.timers w)
           ++ [Timer.Entry (Timer.next_id (Timer.timers w))
                           (Timer.now w + cleanup_delay) (Cleanup a url)]))
       (Env (<[a := anchor url fileName b]>
               (<[b := set_childNodes (childNodes eb ++ [a]) eb]> (elements d)))
            (S a) (Some b) (<[url := Blob content mimeType]> (object_urls d))
            (S (next_url d))
            (downloads d ++ [(fileName, Blob content mimeType)]) (uncaught d))).
Proof.
  intros Hbody Hb Ha.
  destruct w as [n [nid pend] [h nn bd urls nu dl un]]. simpl in *. subst bd.
  assert (Hne : b <> nn) by congruence.
  unfold downloadFile, mbind, M_bind, mret, M_ret, createObjectURL, createElement,
    setAttribute, get_body, set_elements, Timer.set_data.
  cbn [Timer.now Timer.timers Timer.data elements next_node body object_urls
       next_url downloads uncaught].
  unfold appendChild, click, setTimeout, Timer.setTimeout, set_elements,
    Timer.set_data, Timer.set_timers.
  cbn [Timer.now Timer.timers Timer.data elements next_node body object_urls
       next_url downloads uncaught Timer.next_id Timer.pending].
  set (url := mint nu).
  assert (Hh : alter (fun e => set_attributes (<["download" := fileName]> (attributes e)) e) nn
                 (alter (fun e => set_attributes (<["href" := url]> (attributes e)) e) nn
                    (<[nn := empty_element]> h))
               = <[nn := Element "" "" false
                           (<["download" := fileName]> (<["href" := url]> ∅)) None []]> h).
  { rewrite (alter_lookup_insert
               (fun e => set_attributes (<["href" := url]> (attributes e)) e)
               nn empty_element) by apply lookup_insert_eq.
    rewrite insert_insert_eq.
    rewrite (alter_lookup_insert _ nn
               (set_attributes (<["href" := url]> (attributes empty_element))
                               empty_element))
      by apply lookup_insert_eq.
    now rewrite insert_insert_eq. }
  rewrite Hh. clear Hh.
  set (e0 := Element "" "" false (<["download" := fileName]> (<["href" := url]> ∅))
                     None []).
  rewrite (detach_orphan nn e0) by (first [apply lookup_insert_eq | reflexivity]).
  rewrite (alter_lookup_insert _ b eb)
    by (rewrite lookup_insert_ne by congruence; exact Hb).
  rewrite (alter_lookup_insert _ nn e0)
    by (rewrite lookup_insert_ne by congruence; apply lookup_insert_eq).
  rewrite lookup_insert_eq.
  cbn [attributes set_parentNode e0].
  rewrite lookup_insert_eq, lookup_insert_ne, lookup_insert_eq by discriminate.
  rewrite lookup_insert_eq.
  cbn [Timer.now Timer.timers Timer.data elements next_node body object_urls
       next_url downloads uncaught Timer.next_id Timer.pending].
  rewrite (insert_insert_ne _ b nn) by congruence.
  rewrite insert_insert_eq.
  reflexivity.
Qed.

Lemma prune_last (a : node) (l : list node) : a ∉ l -> prune a (l ++ [a]) = l.
Proof.
  intros Ha. unfold prune. rewrite List.filter_app. simpl.
  rewrite Nat.eqb_refl. simpl. rewrite app_nil_r. now apply prune_absent.
Qed.

(** The cleanup of an anchor that is still a child of the body. *)
Lemma handler_cleanup_attached (a b : node) (url : string) (ea eb : element)
    (w : world) :
  body (Timer.data w) = Some b ->
  elements (Timer.data w) !! a = Some ea -> parentNode ea = Some b ->
  elements (Timer.data w) !! b = Some eb -> b <> a ->
  handler (Cleanup a url) w
  = let d := Timer.data w in
    Timer.set_data
      (Env (<[a := set_parentNode None ea]>
              (<[b := set_childNodes (prune a (childNodes eb)) eb]> (elements d)))
           (next_node d) (body d) (delete url (object_urls d)) (next_url d)
           (downloads d) (uncaught d)) w.
Proof.
  intros Hbody Ha Hpar Hb Hne.
  destruct w as [n q [h nn bd urls nu dl un]]. simpl in *. subst bd.
  unfold handler, cleanup, mbind, M_bind, get_body, removeChild, revokeObjectURL.
  simpl. rewrite Ha, Hpar. rewrite bool_decide_eq_true_2 by reflexivity.
  rewrite (detach_attached _ a b ea eb Ha Hpar Hb Hne). reflexivity.
Qed.

(** The cleanup of an anchor that is no longer a child of the body. *)
Lemma handler_cleanup_detached (a b : node) (url : string) (ea : element)
    (w : world) :
  body (Timer.data w) = Some b ->
  elements (Timer.data w) !! a = Some ea -> parentNode ea <> Some b ->
  handler (Cleanup a url) w
  = let d := Timer.data w in
    Timer.set_data
      (Env (elements d) (next_node d) (body d) (object_urls d) (next_url d)
           (downloads d) (uncaught d ++ [DOMException "NotFoundError"])) w.
Proof.
  intros Hbody Ha Hpar.
  destruct w as [n q [h nn bd urls nu dl un]]. simpl in *. subst bd.
  unfold handler, cleanup, mbind, M_bind, get_body, removeChild, revokeObjectURL.
  simpl. rewrite Ha. now rewrite bool_decide_eq_false_2 by exact Hpar.
Qed.

(** X17. On a page with a body, [downloadFile] saves exactly one file,
    at once, under the given name and with the given content and MIME
    type, and sets one timer, due 100 ms later, for the cleanup. *)
Theorem downloadFile_saves_once (content fileName mimeType : string) (b : node)
    (eb : element) (w : world) :
  body (Timer.data w) = Some b ->
  elements (Timer.data w) !! b = Some eb ->
  elements (Timer.data w) !! next_node (Timer.data w) = None ->
  let r := downloadFile content fileName mimeType w in
  fst r = Ok tt /\
  downloads (Timer.data (snd r))
  = downloads (Timer.data w) ++ [(fileName, Blob content mimeType)] /\
  Timer.pending (Timer.timers (snd r))
  = Timer.pending (Timer.timers w)
    ++ [Timer.Entry (Timer.next_id (Timer.timers w)) (Timer.now w + 100)
                    (Cleanup (next_node (Timer.data w))
                             (mint (next_url (Timer.data w))))] /\
  uncaught (Timer.data (snd r)) = uncaught (Timer.data w).
Proof.
  intros Hbody Hb Ha. cbv zeta.
  rewrite (downloadFile_run content fileName mimeType b eb w Hbody Hb Ha).
  repeat split.
Qed.

(** X18. With no other timer pending and a fresh object URL: until
    100 ms have passed the anchor is the last child of the body and the
    URL is registered; once they have passed the body has exactly the
    children it had before, the registry of object URLs is what it was,
    and nothing was thrown. *)
Theorem downloadFile_cleans_up (content fileName mimeType : string) (b : node)
    (eb : element) (w : world) :
  body (Timer.data w) = Some b ->
  elements (Timer.data w) !! b = Some eb ->
  elements (Timer.data w) !! next_node (Timer.data w) = None ->
  next_node (Timer.data w) ∉ childNodes eb ->
  object_urls (Timer.data w) !! mint (next_url (Timer.data w)) = None ->
  Timer.pending (Timer.timers w) = [] ->
  let a := next_node (Timer.data w) in
  let url := mint (next_url (Timer.data w)) in
  let w1 := snd (downloadFile content fileName mimeType w) in
  (forall T : nat,
     (T < Timer.now w + 100)%nat ->
     let d2 := Timer.data (Timer.advance handler T w1) in
     childNodes <$> (elements d2 !! b) = Some (childNodes eb ++ [a]) /\
     object_urls d2 !! url = Some (Blob content mimeType)) /\
  (forall T : nat,
     (Timer.now w + 100 <= T)%nat ->
     let w2 := Timer.advance handler T w1 in
     elements (Timer.data w2)
     = <[a := set_parentNode None (anchor url fileName b)]> (elements (Timer.data w)) /\
     elements (Timer.data w2) !! b = Some eb /\
     object_urls (Timer.data w2) = object_urls (Timer.data w) /\
     uncaught (Timer.data w2) = uncaught (Timer.data w) /\
     Timer.pending (Timer.timers w2) = []).
Proof.
  intros Hbody Hb Ha Hfresh Hurl Hpend. cbv zeta.
  rewrite (downloadFile_run content fileName mimeType b eb w Hbody Hb Ha).
  simpl snd. rewrite Hpend. simpl app.
  set (a := next_node (Timer.data w)) in *.
  set (url := mint (next_url (Timer.data w))) in *.
  assert (Hne : b <> a) by congruence.
  split.
  - intros T HT.
    rewrite (advance_nothing_due handler);
      [| intros e He; apply list_elem_of_singleton in He as ->; simpl;
         unfold cleanup_delay; lia].
    simpl. rewrite lookup_insert_ne, lookup_insert_eq by congruence.
    split; [reflexivity | apply lookup_insert_eq].
  - intros T HT.
    erewrite (advance_head_due handler download_handler_timers);
      [| reflexivity | intros e' He'; inversion He'
       | simpl; unfold cleanup_delay; lia].
    cbn [Timer.callback Timer.now Timer.due Timer.timers Timer.next_id Timer.data].
    erewrite (handler_cleanup_attached a b url (anchor url fileName b)
                (set_childNodes (childNodes eb ++ [a]) eb));
      [| reflexivity | simpl; apply lookup_insert_eq | reflexivity
       | simpl; rewrite lookup_insert_ne by congruence; apply lookup_insert_eq
       | exact Hne].
    rewrite (advance_nothing_due handler) by (intros e He; inversion He).
    simpl. rewrite prune_last by exact Hfresh.
    assert (Hheap : <[a := set_parentNode None (anchor url fileName b)]>
                      (<[b := set_childNodes (childNodes eb)
                                (set_childNodes (childNodes eb ++ [a]) eb)]>
                         (<[a := anchor url fileName b]>
                            (<[b := set_childNodes (childNodes eb ++ [a]) eb]>
                               (elements (Timer.data w)))))
                    = <[a := set_parentNode None (anchor url fileName b)]>
                        (elements (Timer.data w))).
    { apply map_eq. intros n.
      destruct (decide (n = a)) as [-> | Hna]; [now rewrite !lookup_insert_eq |].
      rewrite !(lookup_insert_ne _ a n) by congruence.
      destruct (decide (n = b)) as [-> | Hnb].
      - rewrite lookup_insert_eq, Hb. f_equal. now destruct eb.
      - now rewrite !lookup_insert_ne by congruence. }
    rewrite Hheap. split; [reflexivity |]. split.
    { now rewrite lookup_insert_ne by congruence. }
    split; [| split; reflexivity].
    rewrite delete_insert_eq. now apply delete_id.
Qed.

(** X19. If the anchor is taken out of the body before the cleanup
    runs, [removeChild] throws a [NotFoundError] and the callback stops
    there: the object URL is never revoked. *)
Theorem downloadFile_leaks_after_removal (content fileName mimeType : string)
    (b : node) (eb : element) (w : world) (T : nat) :
  body (Timer.data w) = Some b ->
  elements (Timer.data w) !! b = Some eb ->
  elements (Timer.data w) !! next_node (Timer.data w) = None ->
  Timer.pending (Timer.timers w) = [] ->
  (Timer.now w + 100 <= T)%nat ->
  let a := next_node (Timer.data w) in
  let url := mint (next_url (Timer.data w)) in
  let w1 := snd (downloadFile content fileName mimeType w) in
  let w2 := Timer.advance handler T (removed_elsewhere a w1) in
  uncaught (Timer.data w2)
  = uncaught (Timer.data w) ++ [DOMException "NotFoundError"] /\
  object_urls (Timer.data w2) !! url = Some (Blob content mimeType) /\
  Timer.pending (Timer.timers w2) = [].
Proof.
  intros Hbody Hb Ha Hpend HT. cbv zeta.
  rewrite (downloadFile_run content fileName mimeType b eb w Hbody Hb Ha).
  simpl snd. rewrite Hpend. simpl app.
  set (a := next_node (Timer.data w)) in *.
  set (url := mint (next_url (Timer.data w))) in *.
  assert (Hne : b <> a) by congruence.
  unfold removed_elsewhere, set_elements, Timer.set_data.
  cbn [Timer.now Timer.timers Timer.data elements next_node body object_urls
       next_url downloads uncaught].
  rewrite (detach_attached _ a b (anchor url fileName b)
             (set_childNodes (childNodes eb ++ [a]) eb));
    [| apply lookup_insert_eq | reflexivity
     | rewrite lookup_insert_ne by congruence; apply lookup_insert_eq
     | exact Hne].
  erewrite (advance_head_due handler download_handler_timers);
    [| reflexivity | intros e' He'; inversion He'
     | simpl; unfold cleanup_delay; lia].
  cbn [Timer.callback Timer.now Timer.due Timer.timers Timer.next_id Timer.data].
  erewrite (handler_cleanup_detached a b url
              (set_parentNode None (anchor url fileName b)));
    [| reflexivity | simpl; apply lookup_insert_eq | simpl; discriminate].
  rewrite (advance_nothing_due handler) by (intros e He; inversion He).
  simpl. split; [reflexivity |]. split; [apply lookup_insert_eq | reflexivity].
Qed.

(** X20. While the document has no body, [downloadFile] throws a
    [TypeError] at [appendChild]: nothing is saved and no timer is
    set, but the object URL was already made and stays registered. *)
Theorem downloadFile_without_body (content fileName mimeType : string) (w : world) :
  body (Timer.data w) = None ->
  let r := downloadFile content fileName mimeType w in
  fst r = Throw (TypeError "Cannot read properties of null (reading 'appendChild')") /\
  downloads (Timer.data (snd r)) = downloads (Timer.data w) /\
  Timer.timers (snd r) = Timer.timers w /\
  object_urls (Timer.data (snd r)) !! mint (next_url (Timer.data w))
  = Some (Blob content mimeType).
Proof.
  intros Hbody. cbv zeta.
  destruct w as [n [nid pend] [h nn bd urls nu dl un]]. simpl in *. subst bd.
  unfold downloadFile, mbind, M_bind, mret, M_ret, createObjectURL, createElement,
    setAttribute, get_body, set_elements, Timer.set_data.
  cbn [Timer.now Timer.timers Timer.data elements next_node body object_urls
       next_url downloads uncaught fst snd].
  split; [reflexivity |]. split; [reflexivity |]. split; [reflexivity |].
  apply lookup_insert_eq.
Qed.

End DownloadFacts.

Lemma downloadFile_saves_once_witness :
  Download.body (Timer.data Download.page_with_body) = Some 0%nat /\
  Download.downloads
    (Timer.data (snd (Download.downloadFile "a,b" "data.csv" "text/csv"
                        Download.page_with_body)))
  = [("data.csv", Download.Blob "a,b" "text/csv")].
Proof.
  split; [reflexivity |].
  exact (proj1 (proj2 (downloadFile_saves_once "a,b" "data.csv" "text/csv" 0%nat
                         (Page.Element "" "" false ∅ None [])
                         Download.page_with_body eq_refl eq_refl eq_refl))).
Defined.

Lemma downloadFile_cleans_up_witness :
  Download.body (Timer.data Download.page_with_body) = Some 0%nat /\
  Timer.pending (Timer.timers Download.page_with_body) = [] /\
  (Timer.now Download.page_with_body + 100 <= 100)%nat /\
  Download.elements
    (Timer.data (Timer.advance Download.handler 100
                   (snd (Download.downloadFile "a,b" "data.csv" "text/csv"
                           Download.page_with_body)))) !! 0%nat
  = Some (Page.Element "" "" false ∅ None []).
Proof.
  assert (H : (Timer.now Download.page_with_body + 100 <= 100)%nat)
    by (apply Nat.leb_le; vm_compute; reflexivity).
  split; [reflexivity |]. split; [reflexivity |]. split; [exact H |].
  exact (proj1 (proj2 (proj2 (downloadFile_cleans_up "a,b" "data.csv" "text/csv" 0%nat
                                (Page.Element "" "" false ∅ None [])
                                Download.page_with_body eq_refl eq_refl eq_refl
                                (not_elem_of_nil _) eq_refl eq_refl)
                         100%nat H))).
Defined.

Lemma downloadFile_leaks_after_removal_witness :
  Download.body (Timer.data Download.page_with_body) = Some 0%nat /\
  Timer.pending (Timer.timers Download.page_with_body) = [] /\
  (Timer.now Download.page_with_body + 100 <= 250)%nat /\
  Download.uncaught
    (Timer.data
       (Timer.advance Download.handler 250
          (Download.removed_elsewhere 1%nat
             (snd (Download.downloadFile "a,b" "data.csv" "text/csv"
                     Download.page_with_body)))))
  = [Page.DOMException "NotFoundError"].
Proof.
  assert (H : (Timer.now Download.page_with_body + 100 <= 250)%nat)
    by (apply Nat.leb_le; vm_compute; reflexivity).
  split; [reflexivity |]. split; [reflexivity |]. split; [exact H |].
  exact (proj1 (downloadFile_leaks_after_removal "a,b" "data.csv" "text/csv" 0%nat
                  (Page.Element "" "" false ∅ None [])
                  Download.page_with_body 250 eq_refl eq_refl eq_refl eq_refl H)).
Defined.

Lemma downloadFile_without_body_witness :
  Download.body (Timer.data Download.page_without_body) = None /\
  Download.downloads
    (Timer.data (snd (Download.downloadFile "a,b" "data.csv" "text/csv"
                        Download.page_without_body)))
  = [].
Proof.
  split; [reflexivity |].
  exact (proj1 (proj2 (downloadFile_without_body "a,b" "data.csv" "text/csv"
                         Download.page_without_body eq_refl))).
Defined.
